(** * mtqosadj: the DSL rate to queue-limit pipeline of [main.py]

    A shallow embedding of [src/main.py] and the properties of its
    rate-adjustment pipeline.

    Python values are modelled by the types the script really handles:
    - the rates come out of [snmp_get] as pyasn1 integer objects
      ([var_binds[0][1]], a Gauge32/Integer32); their arithmetic is pyasn1's:
      [__mul__] and [__sub__] build [self.clone(...)], and [clone] stores
      [int(value)], so a product with a float is truncated toward zero, while
      [__truediv__] yields a real;
    - plain [int] and [float] follow Python's own rules ([/] is true
      division, [int * float] is a float);
    - a float is the rational it stands for, and every float operation is
      the exact one followed by the rounding of IEEE binary64 (53 bits,
      nearest, ties to even).

    Effects (SNMP reads, RouterOS API calls, logging, [exit], exceptions) are
    a trace of events together with a result or a raised exception. *)

From Stdlib Require Import ZArith QArith Qround Qabs Qpower.
From Stdlib Require Import List String Ascii Bool Lia Lqa.
From Stdlib Require Floats Uint63.
Import ListNotations.
Local Open Scope Z_scope.

(** ** Numbers *)

Module Num.

(** *** Binary64 arithmetic on rationals

    A finite binary64 number is a rational [n * 2^e] with [|n| < 2^53] and
    [e >= -1074].  Each float operation of CPython is the exact operation
    followed by one rounding to the nearest such number, ties to the even
    significand.  Infinities, NaN, the sign of zero and exponent overflow
    (results of magnitude [2^1024] and more, where CPython raises
    [OverflowError] or yields [inf]) are not represented: the rates of the
    modem are 32- or 64-bit integers. *)

(** Nearest integer, ties to even. *)
Definition Qrne (q : Q) : Z :=
  let n := Qfloor q in
  match (q - inject_Z n ?= 1 # 2)%Q with
  | Lt => n
  | Gt => n + 1
  | Eq => if Z.even n then n else n + 1
  end.

(** [floor(log2 q)] for [q > 0]. *)
Definition binade (q : Q) : Z :=
  let e0 := Z.log2 (Qnum q) - Z.log2 (Zpos (Qden q)) in
  if Qle_bool (2 ^ e0) q then e0 else e0 - 1.

(** Rounding to binary64: 53 significant bits, and no bit below [2^-1074]. *)
Definition round_b64 (q : Q) : Q :=
  if Qeq_bool q 0 then 0%Q
  else
    let s := Z.min (52 - binade (Qabs q)) 1074 in
    (inject_Z (Qrne (q * 2 ^ s)) * 2 ^ (- s))%Q.

(** *** Python numbers *)

(** The numeric values that reach the arithmetic of the script.  [PyFloat q]
    is the float nearest to [q]: the binary64 number [round_b64 q]. *)
Inductive pynum : Type :=
| PyInt (z : Z)        (* Python int *)
| PyFloat (q : Q)      (* Python float (also pyasn1 Real) *)
| SnmpInt (z : Z).     (* pyasn1 Integer as returned by pysnmp *)

(** The value of a number. *)
Definition to_Q (x : pynum) : Q :=
  match x with
  | PyInt z => inject_Z z
  | PyFloat q => round_b64 q
  | SnmpInt z => inject_Z z
  end.

(** [float(x)]: an integer becomes the nearest float. *)
Definition float_of (x : pynum) : Q :=
  match x with
  | PyInt z | SnmpInt z => round_b64 (inject_Z z)
  | PyFloat q => round_b64 q
  end.

(** [int(x)] on a rational: truncation toward zero. *)
Definition Qtrunc (q : Q) : Z := Z.quot (Qnum q) (Zpos (Qden q)).

(** [x / d] for a numeric literal [d]: true division, always a float, the
    one nearest to the exact quotient.  The script only divides by the
    literals 100 and 1000. *)
Definition py_truediv (x : pynum) (d : Z) : pynum :=
  PyFloat (to_Q x / inject_Z d).

(** [x * y].  Two integers multiply exactly; with a float, the integer is
    converted to a float first and the float product is rounded.  A pyasn1
    integer on either side gives [clone(product)], i.e. a pyasn1 integer
    holding [int(product)]. *)
Definition py_mul (x y : pynum) : pynum :=
  match x, y with
  | PyInt a, PyInt b => PyInt (a * b)
  | SnmpInt a, PyInt b | PyInt a, SnmpInt b | SnmpInt a, SnmpInt b =>
      SnmpInt (a * b)
  | SnmpInt _, PyFloat _ | PyFloat _, SnmpInt _ =>
      SnmpInt (Qtrunc (round_b64 (float_of x * float_of y)))
  | _, _ => PyFloat (float_of x * float_of y)
  end.

(** [x - y], with the same dispatch. *)
Definition py_sub (x y : pynum) : pynum :=
  match x, y with
  | PyInt a, PyInt b => PyInt (a - b)
  | SnmpInt a, PyInt b | PyInt a, SnmpInt b | SnmpInt a, SnmpInt b =>
      SnmpInt (a - b)
  | SnmpInt _, PyFloat _ | PyFloat _, SnmpInt _ =>
      SnmpInt (Qtrunc (round_b64 (float_of x - float_of y)))
  | _, _ => PyFloat (float_of x - float_of y)
  end.

(** Truth value of a number: non-zero. *)
Definition py_truthy (x : pynum) : bool :=
  negb (Qeq_bool (to_Q x) 0).

(** [x <= 0]. *)
Definition py_le0 (x : pynum) : bool := Qle_bool (to_Q x) 0.

(** [round(q, 2)] for the value [q] of a float: the nearest number of
    hundredths, ties to the even neighbour.  The argument is the exact
    value of the binary64 number, so a tie occurs only when that value lies
    exactly half-way. *)
Definition py_round2 (q : Q) : Q :=
  let s := (q * 100)%Q in
  let n := Qfloor s in
  let twice_frac := Qfloor ((s - inject_Z n) * 2 * inject_Z (Zpos (Qden s))) in
  let half := Zpos (Qden s) in
  let up :=
    if Z.ltb half twice_frac then true
    else if Z.eqb half twice_frac then Z.odd n
    else false in
  (if up then n + 1 else n) # 100.

(** [bits_to_kbps], lines 81-82. *)
Definition bits_to_kbps (bits_per_second : pynum) : pynum :=
  PyFloat (py_round2 (to_Q (py_truediv bits_per_second 1000))).

(** [subtract_percentage], lines 85-88. *)
Definition subtract_percentage (number percentage : pynum) : pynum :=
  let amount_to_subtract := py_mul number (py_truediv percentage 100) in
  let result := py_sub number amount_to_subtract in
  result.

End Num.
Import Num.

(** The same operations on the machine floats of the proof assistant (IEEE
    binary64), to compare [round_b64] with the hardware on concrete
    numbers. *)
Module Binary64.

Definition of_Z (z : Z) : PrimFloat.float :=
  PrimFloat.of_uint63 (Uint63.of_Z z).

(** The exact value of a finite float. *)
Definition value (f : PrimFloat.float) : Q :=
  match FloatOps.Prim2SF f with
  | SpecFloat.S754_finite s m e =>
      ((if s then - (1) else 1) * inject_Z (Zpos m) * 2 ^ e)%Q
  | _ => 0%Q
  end.

(** [int(f)] for a finite float. *)
Definition trunc (f : PrimFloat.float) : Z :=
  match FloatOps.Prim2SF f with
  | SpecFloat.S754_finite s m e =>
      let v := if 0 <=? e then Zpos m * 2 ^ e else Zpos m / 2 ^ (- e) in
      if s then - v else v
  | _ => 0
  end.

(** [int(number * (percentage / 100))] on integers below [2^62]. *)
Definition margin_amount (number percentage : Z) : Z :=
  trunc (PrimFloat.mul (of_Z number)
           (PrimFloat.div (of_Z percentage) (of_Z 100))).

(** [number / 1000] on an integer below [2^62]. *)
Definition thousandth (number : Z) : Q :=
  value (PrimFloat.div (of_Z number) (of_Z 1000)).

End Binary64.

(** ** Python values, exceptions and the effect monad *)

(** Values held by variables that may also be [None] or text. *)
Inductive pyval : Type :=
| PNone
| PStr (s : string)
| PNum (n : pynum).

Definition is_not_None (v : pyval) : bool :=
  match v with PNone => false | _ => true end.

Definition of_option (o : option string) : pyval :=
  match o with Some s => PStr s | None => PNone end.

(** Truth value of a Python object: [None], the empty string and zero are
    false. *)
Definition truthy (v : pyval) : bool :=
  match v with
  | PNone => false
  | PStr s => negb (String.eqb s "")
  | PNum n => py_truthy n
  end.

Inductive exn : Type :=
| SystemExit (code : Z)              (* raised by [exit(code)] *)
| UnboundLocalError (var : string)
| TypeError (what : string)
| ValueError (what : string)
| PySnmpError (msg : string)         (* raised inside [next(snmp_request)] *)
| RouterOsApiError (msg : string).   (* raised by [api_pool.get_api()] *)

(** [str(e)], as far as the script prints it. *)
Definition str_of_exn (e : exn) : string :=
  match e with
  | SystemExit _ => ""
  | UnboundLocalError var => var
  | TypeError what | ValueError what => what
  | PySnmpError msg | RouterOsApiError msg => msg
  end.

(** [except Exception] does not catch [SystemExit]. *)
Definition is_Exception (e : exn) : bool :=
  match e with SystemExit _ => false | _ => true end.

Inductive level : Type := DEBUG | INFO | WARNING | ERROR.

(** Observable actions, in program order.  [ELog] carries the source line of
    the logging call.  [EQueueSet] is the RouterOS update request
    ([resource.set(id=..., max_limit=...)]). *)
Inductive event : Type :=
| EGetApi
| ESnmpGet (dsl_modem_ip community_string oid : string)
| EPrint (msg : string)
| ELog (line : nat) (lvl : level) (fmt : string) (args : list pyval)
| EQueueGet (queue_name : string)
| EQueueSet (queue_id max_limit : pyval)
| EDisconnect.

Inductive result (A : Type) : Type :=
| Ok (a : A)
| Raise (e : exn).
Arguments Ok {A} a.
Arguments Raise {A} e.

(** A computation: the events it performed and how it ended. *)
Definition M (A : Type) : Type := (list event * result A)%type.

Definition ret {A} (a : A) : M A := ([], Ok a).
Definition raise {A} (e : exn) : M A := ([], Raise e).
Definition emit (ev : event) : M unit := ([ev], Ok tt).

Definition bind {A B} (m : M A) (k : A -> M B) : M B :=
  match m with
  | (t, Ok a) => let (t', r) := k a in (t ++ t', r)
  | (t, Raise e) => (t, Raise e)
  end.

Notation "x <- m ;; k" := (bind m (fun x => k))
  (at level 61, m at next level, right associativity).
Notation "m ;;; k" := (bind m (fun _ => k))
  (at level 61, right associativity).

(** [try: m except Exception as e: h e]. *)
Definition try_except {A} (m : M A) (h : exn -> M A) : M A :=
  match m with
  | (t, Raise e) =>
      if is_Exception e then let (t', r) := h e in (t ++ t', r) else m
  | _ => m
  end.

Definition exit {A} (code : Z) : M A := raise (SystemExit code).

Definition trace {A} (m : M A) : list event := fst m.
Definition outcome {A} (m : M A) : result A := snd m.

(** Exit status of the process when [m] is the whole run: 0 on normal
    return, the code of [exit], 1 for an uncaught exception. *)
Definition exit_status {A} (m : M A) : Z :=
  match outcome m with
  | Ok _ => 0
  | Raise (SystemExit c) => c
  | Raise _ => 1
  end.

(** ** The environment: modem, router and configuration *)

(** What one SNMP GET can do: [next(snmp_request)] raises, or it reports an
    error indication, or it delivers the value of the first binding. *)
Inductive snmp_reply : Type :=
| SnmpRaises (msg : string)
| SnmpErrorIndication (msg : string)
| SnmpValue (z : Z).

(** One entry of [/queue/tree] as the API returns it (a dict). *)
Record queue : Type := mkQueue {
  q_name : string;
  q_id : option string;          (* entry.get('id') *)
  q_max_limit : option string    (* entry.get('max-limit') *)
}.

(** The [api] handle: the queue tree it reads. *)
Definition api := list queue.

Record world : Type := mkWorld {
  get_api_error : option string;        (* [Some msg]: connecting fails *)
  snmp_agent : string -> snmp_reply;    (* reply per OID *)
  queue_tree : api
}.

Record config : Type := mkConfig {
  DOWNLOAD_QUEUE_NAME : string;
  UPLOAD_QUEUE_NAME : string;
  DSL_MODEM_IP : string;
  SNMP_COMMUNITY_STRING : string;
  SNMP_OID_DOWNSTREAM : string;
  SNMP_OID_UPSTREAM : string
}.

Definition dquote : string := String (ascii_of_nat 34) EmptyString.

(** ** The functions of [main.py] *)

(** [snmp_get], lines 91-105.  With an error indication the function prints
    and falls off its end, returning [None]. *)
Definition snmp_get (w : world) (dsl_modem_ip community_string oid : string)
  : M pyval :=
  emit (ESnmpGet dsl_modem_ip community_string oid) ;;;
  match snmp_agent w oid with
  | SnmpRaises msg => raise (PySnmpError msg)
  | SnmpErrorIndication error_indication =>
      emit (EPrint ("SNMP Error: " ++ error_indication)) ;;;
      ret PNone
  | SnmpValue z => ret (PNum (SnmpInt z))
  end.

(** [api.get_resource('/queue/tree').get(name=queue_name)]. *)
Definition queue_tree_get (a : api) (queue_name : string) : M (list queue) :=
  emit (EQueueGet queue_name) ;;;
  ret (filter (fun q => String.eqb (q_name q) queue_name) a).

(** [get_queue_tree_attributes], lines 107-118. *)
Definition get_queue_tree_attributes (a : api) (queue_name : string)
  : M (pyval * pyval) :=
  target_queue <- queue_tree_get a queue_name ;;
  match target_queue with
  | q :: _ =>
      let queue_id := of_option (q_id q) in
      let max_limit_value := of_option (q_max_limit q) in
      ret (queue_id, max_limit_value)
  | [] => ret (PNone, PNone)
  end.

(** [set_queue_tree_max_limit], lines 120-135.  The local [queue_id] is
    bound only inside the first [if]; [None] below stands for the unbound
    local, and reading it raises [UnboundLocalError].  The update request of
    line 131 is commented out in the source, so no [EQueueSet] is emitted. *)
Definition set_queue_tree_max_limit (a : api) (queue_name : string)
    (max_limit : pyval) : M unit :=
  target_queue <- queue_tree_get a queue_name ;;
  let queue_id : option pyval :=
    match target_queue with
    | q :: _ => Some (of_option (q_id q))
    | [] => None
    end in
  match queue_id with
  | None => raise (UnboundLocalError "queue_id")
  | Some queue_id =>
      if truthy queue_id && truthy max_limit then
        emit (ELog 130 INFO
                ("Setting Queue " ++ dquote ++ "%s" ++ dquote
                   ++ " Max Limit to %s")
                [PStr queue_name; max_limit])
      else
        emit (ELog 134 ERROR "Queue ID or Max Limit is not set" [])
  end.

(** [int(s)] on text, as CPython reads it in base 10: white space around
    the number is skipped, one sign may precede the digits, one underscore
    may stand between two digits, and a number of more than 4300 digits is
    refused (the interpreter's default limit).  A character is a code point
    below 256; among these the white space is 9 to 13, 32, 133 and 160, and
    the digits are [0] to [9]. *)
Definition is_space (c : ascii) : bool :=
  let n := Z.of_nat (nat_of_ascii c) in
  ((9 <=? n) && (n <=? 13)) || (n =? 32) || (n =? 133) || (n =? 160).

Definition digit_of (c : ascii) : option Z :=
  let n := Z.of_nat (nat_of_ascii c) in
  if (48 <=? n) && (n <=? 57) then Some (n - 48) else None.

Fixpoint lstrip (s : string) : string :=
  match s with
  | String c s' => if is_space c then lstrip s' else s
  | EmptyString => s
  end.

Fixpoint all_space (s : string) : bool :=
  match s with
  | String c s' => is_space c && all_space s'
  | EmptyString => true
  end.

Fixpoint digit_count (s : string) : Z :=
  match s with
  | String c s' =>
      match digit_of c with
      | Some _ => 1 + digit_count s'
      | None => digit_count s'
      end
  | EmptyString => 0
  end.

(** What may follow a digit: a digit, an underscore and a digit, or white
    space up to the end. *)
Fixpoint parse_digits (s : string) (acc : Z) : option Z :=
  match s with
  | EmptyString => Some acc
  | String c s' =>
      match digit_of c with
      | Some d => parse_digits s' (acc * 10 + d)
      | None =>
          if Ascii.eqb c "_" then
            match s' with
            | String c' s'' =>
                match digit_of c' with
                | Some d => parse_digits s'' (acc * 10 + d)
                | None => None
                end
            | EmptyString => None
            end
          else if all_space s then Some acc
          else None
      end
  end.

(** The digits start with a digit. *)
Definition parse_number (s : string) : option Z :=
  match s with
  | String c s' =>
      match digit_of c with
      | Some d => parse_digits s' d
      | None => None
      end
  | EmptyString => None
  end.

Definition int_of_string (s : string) : option Z :=
  if 4300 <? digit_count s then None
  else
    match lstrip s with
    | String c s' =>
        if Ascii.eqb c "-" then option_map Z.opp (parse_number s')
        else if Ascii.eqb c "+" then parse_number s'
        else parse_number (String c s')
    | EmptyString => None
    end.

(** [int(v)]: [None] is a [TypeError], text that is no number a
    [ValueError]. *)
Definition py_int (v : pyval) : M pyval :=
  match v with
  | PNone => raise (TypeError "int() argument must not be NoneType")
  | PStr s =>
      match int_of_string s with
      | Some z => ret (PNum (PyInt z))
      | None => raise (ValueError "invalid literal for int()")
      end
  | PNum n => ret (PNum (PyInt (Qtrunc (to_Q n))))
  end.

(** [v is None or v <= 0], lines 180 and 184. *)
Definition none_or_le0 (v : pyval) : M bool :=
  match v with
  | PNone => ret true
  | PNum n => ret (py_le0 n)
  | PStr _ => raise (TypeError "<= not supported between str and int")
  end.

(** A value used as an operand of arithmetic. *)
Definition as_num (v : pyval) : M pynum :=
  match v with
  | PNum n => ret n
  | _ => raise (TypeError "unsupported operand type")
  end.

(** Lines 152-164: the pool and [api_pool.get_api()]. *)
Definition get_api (w : world) : M api :=
  emit EGetApi ;;;
  match get_api_error w with
  | Some msg => raise (RouterOsApiError msg)
  | None => ret (queue_tree w)
  end.

(** Lines 173-186: both reads under one [try], then the two validity
    checks, each ending the process with [exit(1)]. *)
Definition read_rates (cfg : config) (w : world) : M (pynum * pynum) :=
  rates <-
    try_except
      (dsl_downstream_act_rate <-
         snmp_get w (DSL_MODEM_IP cfg) (SNMP_COMMUNITY_STRING cfg)
           (SNMP_OID_DOWNSTREAM cfg) ;;
       dsl_upstream_act_rate <-
         snmp_get w (DSL_MODEM_IP cfg) (SNMP_COMMUNITY_STRING cfg)
           (SNMP_OID_UPSTREAM cfg) ;;
       ret (dsl_downstream_act_rate, dsl_upstream_act_rate))
      (fun e => emit (EPrint ("Error: " ++ str_of_exn e)) ;;; exit 1) ;;
  let '(dsl_downstream_act_rate, dsl_upstream_act_rate) := rates in
  bad_down <- none_or_le0 dsl_downstream_act_rate ;;
  (if bad_down : bool then
     emit (ELog 181 ERROR "Error: Downstream attainable rate not found" []) ;;;
     exit 1
   else ret tt) ;;;
  bad_up <- none_or_le0 dsl_upstream_act_rate ;;
  (if bad_up : bool then
     emit (ELog 185 ERROR "Error: Upstream attainable rate not found" []) ;;;
     exit 1
   else ret tt) ;;;
  down <- as_num dsl_downstream_act_rate ;;
  up <- as_num dsl_upstream_act_rate ;;
  ret (down, up).

(** Lines 226-237: re-read both queues, convert the limits with [int], and
    report them. *)
Definition report_applied (a : api) (cfg : config) : M unit :=
  down_attrs <- get_queue_tree_attributes a (DOWNLOAD_QUEUE_NAME cfg) ;;
  mt_queue_tree_download_applied_max_limit_value <- py_int (snd down_attrs) ;;
  up_attrs <- get_queue_tree_attributes a (UPLOAD_QUEUE_NAME cfg) ;;
  mt_queue_tree_upload_applied_max_limit_value <- py_int (snd up_attrs) ;;
  if is_not_None mt_queue_tree_download_applied_max_limit_value
     && is_not_None mt_queue_tree_upload_applied_max_limit_value
  then
    kd <- as_num mt_queue_tree_download_applied_max_limit_value ;;
    ku <- as_num mt_queue_tree_upload_applied_max_limit_value ;;
    emit (ELog 230 INFO
            "Download/Uploads Queue APPLIED Max Limits: %s/%s (%s/%s kbps)"
            [mt_queue_tree_download_applied_max_limit_value;
             mt_queue_tree_upload_applied_max_limit_value;
             PNum (bits_to_kbps kd); PNum (bits_to_kbps ku)])
  else
    emit (ELog 237 WARNING "Queue Tree entry not found." []).

(** [main], lines 137-239 (configuration loading left out: [cfg] is its
    result). *)
Definition main (cfg : config) (w : world) : M unit :=
  a <- get_api w ;;
  rates <- read_rates cfg w ;;
  let '(dsl_downstream_act_rate, dsl_upstream_act_rate) := rates in
  emit (ELog 189 INFO
          "DSL Downstream/Upstream actual rates: %s/%s bps (%s/%s kbps)"
          [PNum dsl_downstream_act_rate; PNum dsl_upstream_act_rate;
           PNum (bits_to_kbps dsl_downstream_act_rate);
           PNum (bits_to_kbps dsl_upstream_act_rate)]) ;;;
  let mt_down_queue_set_max_limit :=
    subtract_percentage dsl_downstream_act_rate (PyInt 10) in
  let mt_up_queue_set_max_limit :=
    subtract_percentage dsl_upstream_act_rate (PyInt 10) in
  emit (ELog 200 DEBUG "Down/Up Queue Proposed Max Limits: %s/%s"
          [PNum mt_down_queue_set_max_limit;
           PNum mt_up_queue_set_max_limit]) ;;;
  down_attrs <- get_queue_tree_attributes a (DOWNLOAD_QUEUE_NAME cfg) ;;
  up_attrs <- get_queue_tree_attributes a (UPLOAD_QUEUE_NAME cfg) ;;
  let '(mt_queue_tree_download_id, mt_queue_tree_download_max_limit_value) :=
    down_attrs in
  let '(mt_queue_tree_upload_id, mt_queue_tree_upload_max_limit_value) :=
    up_attrs in
  (if is_not_None mt_queue_tree_download_id
      && is_not_None mt_queue_tree_upload_id
   then
     emit (ELog 209 DEBUG "Download/Upload Queue IDs: %s/%s"
             [mt_queue_tree_download_id; mt_queue_tree_upload_id]) ;;;
     emit (ELog 211 INFO "Download/Upload Queue CURRENT Max Limit: %s/%s"
             [mt_queue_tree_download_max_limit_value;
              mt_queue_tree_upload_max_limit_value])
   else
     emit (ELog 216 WARNING "Queue Tree entry not found." [])) ;;;
  set_queue_tree_max_limit a (DOWNLOAD_QUEUE_NAME cfg)
    (PNum mt_down_queue_set_max_limit) ;;;
  set_queue_tree_max_limit a (UPLOAD_QUEUE_NAME cfg)
    (PNum mt_up_queue_set_max_limit) ;;;
  report_applied a cfg ;;;
  emit EDisconnect.

(** ** A run on the values of the module docstring *)

Definition cfg0 : config :=
  mkConfig "download" "upload" "192.0.2.1" "public" "oid.down" "oid.up".

Definition agent0 (down up : snmp_reply) (oid : string) : snmp_reply :=
  if String.eqb oid "oid.down" then down else up.

Definition tree0 : api :=
  [ mkQueue "download" (Some "*1"%string) (Some "45609063"%string);
    mkQueue "upload" (Some "*2"%string) (Some "9738548"%string) ].

Definition world0 : world :=
  mkWorld None (agent0 (SnmpValue 50676736) (SnmpValue 10820608)) tree0.

(** The router lacks the download queue; the upload queue is there. *)
Definition world_no_download : world :=
  mkWorld None (agent0 (SnmpValue 50676736) (SnmpValue 10820608))
    [ mkQueue "upload" (Some "*2"%string) (Some "9738548"%string) ].

(** The router holds a download limit whose thousandth lies at a decimal
    tie (45,609.065), written with white space around it. *)
Definition world_tie_limit : world :=
  mkWorld None (agent0 (SnmpValue 50676736) (SnmpValue 10820608))
    [ mkQueue "download" (Some "*1"%string) (Some " 45609065 "%string);
      mkQueue "upload" (Some "*2"%string) (Some "9_738_548"%string) ].

(** The downstream read reports an error indication (a timeout). *)
Definition world_read_timeout : world :=
  mkWorld None
    (agent0 (SnmpErrorIndication "No SNMP response received before timeout")
            (SnmpValue 10820608))
    tree0.

(** ** Observations on traces *)

Definition is_set (ev : event) : bool :=
  match ev with EQueueSet _ _ => true | _ => false end.

(** Any request to the router about a queue, read or update. *)
Definition is_queue_request (ev : event) : bool :=
  match ev with EQueueGet _ | EQueueSet _ _ => true | _ => false end.

Definition is_disconnect (ev : event) : bool :=
  match ev with EDisconnect => true | _ => false end.

Definition is_log (ev : event) : bool :=
  match ev with ELog _ _ _ _ => true | _ => false end.

Definition is_log_at (line : nat) (ev : event) : bool :=
  match ev with ELog l _ _ _ => Nat.eqb l line | _ => false end.

Definition count (P : event -> bool) (t : list event) : nat :=
  List.length (filter P t).

(** Every event of the run satisfies [P]. *)
Definition all_events {A} (P : event -> bool) (m : M A) : Prop :=
  Forall (fun ev => P ev = true) (trace m).

(** A run that released the session also returned normally. *)
Definition released_only_if_ok {A} (m : M A) : Prop :=
  In EDisconnect (trace m) -> exists a, outcome m = Ok a.

(** A read that fails or delivers a value the script rejects. *)
Definition reply_bad (r : snmp_reply) : bool :=
  match r with
  | SnmpValue z => z <=? 0
  | SnmpRaises _ | SnmpErrorIndication _ => true
  end.

(** ** Further observations *)

(** The entry that a lookup by name uses: the first one of that name. *)
Definition first_entry (a : api) (queue_name : string) : option queue :=
  hd_error (filter (fun q => String.eqb (q_name q) queue_name) a).

(** The limit the router holds for a queue, as [int] reads it. *)
Definition stored_limit (a : api) (queue_name : string) : option Z :=
  match first_entry a queue_name with
  | Some q =>
      match q_max_limit q with
      | Some s => int_of_string s
      | None => None
      end
  | None => None
  end.

(** The rate a reply delivers, when the script accepts it. *)
Definition valid_rate (r : snmp_reply) : option Z :=
  match r with
  | SnmpValue z => if z <=? 0 then None else Some z
  | _ => None
  end.

Definition is_snmp_get (ev : event) : bool :=
  match ev with ESnmpGet _ _ _ => true | _ => false end.

Definition is_queue_get (ev : event) : bool :=
  match ev with EQueueGet _ => true | _ => false end.

(** Whenever the run ends through [exit], the code is 1. *)
Definition exits_with_one {A} (m : M A) : Prop :=
  forall c, outcome m = Raise (SystemExit c) -> c = 1.

(** The trace splits into a part satisfying [P] followed by one
    satisfying [Q]. *)
Definition in_two_phases {A} (P Q : event -> bool) (m : M A) : Prop :=
  exists t1 t2,
    trace m = (t1 ++ t2)%list
    /\ Forall (fun ev => P ev = true) t1
    /\ Forall (fun ev => Q ev = true) t2.

(** The run of [main] when nothing fails. *)
Definition success_trace (cfg : config) (zd zu : Z) (qd qu : queue)
    (ad au : Z) : list event :=
  let announce name q z :=
    if truthy (of_option (q_id q))
       && truthy (PNum (subtract_percentage (SnmpInt z) (PyInt 10)))
    then ELog 130 INFO
           ("Setting Queue " ++ dquote ++ "%s" ++ dquote
              ++ " Max Limit to %s")
           [PStr name; PNum (subtract_percentage (SnmpInt z) (PyInt 10))]
    else ELog 134 ERROR "Queue ID or Max Limit is not set" [] in
  [ EGetApi;
    ESnmpGet (DSL_MODEM_IP cfg) (SNMP_COMMUNITY_STRING cfg)
      (SNMP_OID_DOWNSTREAM cfg);
    ESnmpGet (DSL_MODEM_IP cfg) (SNMP_COMMUNITY_STRING cfg)
      (SNMP_OID_UPSTREAM cfg);
    ELog 189 INFO
      "DSL Downstream/Upstream actual rates: %s/%s bps (%s/%s kbps)"
      [ PNum (SnmpInt zd); PNum (SnmpInt zu);
        PNum (bits_to_kbps (SnmpInt zd)); PNum (bits_to_kbps (SnmpInt zu)) ];
    ELog 200 DEBUG "Down/Up Queue Proposed Max Limits: %s/%s"
      [ PNum (subtract_percentage (SnmpInt zd) (PyInt 10));
        PNum (subtract_percentage (SnmpInt zu) (PyInt 10)) ];
    EQueueGet (DOWNLOAD_QUEUE_NAME cfg);
    EQueueGet (UPLOAD_QUEUE_NAME cfg) ]
  ++ (if is_not_None (of_option (q_id qd))
         && is_not_None (of_option (q_id qu))
      then [ ELog 209 DEBUG "Download/Upload Queue IDs: %s/%s"
               [of_option (q_id qd); of_option (q_id qu)];
             ELog 211 INFO "Download/Upload Queue CURRENT Max Limit: %s/%s"
               [of_option (q_max_limit qd); of_option (q_max_limit qu)] ]
      else [ ELog 216 WARNING "Queue Tree entry not found." [] ])
  ++ [ EQueueGet (DOWNLOAD_QUEUE_NAME cfg);
       announce (DOWNLOAD_QUEUE_NAME cfg) qd zd;
       EQueueGet (UPLOAD_QUEUE_NAME cfg);
       announce (UPLOAD_QUEUE_NAME cfg) qu zu;
       EQueueGet (DOWNLOAD_QUEUE_NAME cfg);
       EQueueGet (UPLOAD_QUEUE_NAME cfg);
       ELog 230 INFO
         "Download/Uploads Queue APPLIED Max Limits: %s/%s (%s/%s kbps)"
         [ PNum (PyInt ad); PNum (PyInt au);
           PNum (bits_to_kbps (PyInt ad)); PNum (bits_to_kbps (PyInt au)) ];
       EDisconnect ].


(** ** Start-up: [read_config] and lines 141-170 of [main] *)

Module Startup.

(** A value produced by [json.load]. *)
Local Unset Elimination Schemes.
Inductive json : Type :=
| JNull
| JBool (b : bool)
| JInt (z : Z)
| JFloat (q : Q)                  (* the float nearest to [q] *)
| JStr (s : string)
| JArr (items : list json)
| JObj (members : list (string * json)).
Local Set Elimination Schemes.

(** A dict with text keys; a lookup takes the first binding. *)
Fixpoint assoc {V : Type} (key : string) (l : list (string * V)) : option V :=
  match l with
  | [] => None
  | (k, v) :: l' => if String.eqb k key then Some v else assoc key l'
  end.

(** [os.environ]. *)
Definition environ := list (string * string).

(** What [config.json] is when the script starts. *)
Inductive config_file : Type :=
| FileUnreadable                 (* [open] raises *)
| FileMalformed                  (* [json.load] raises *)
| FileJson (j : json).

Inductive start_exn : Type :=
| OSError
| JSONDecodeError
| KeyError (key : string)
| Other (e : exn).

Inductive sresult (A : Type) : Type :=
| SOk (a : A)
| SRaise (e : start_exn).
Arguments SOk {A} a.
Arguments SRaise {A} e.

Definition ST (A : Type) : Type := (list event * sresult A)%type.

Definition sret {A} (a : A) : ST A := ([], SOk a).
Definition sraise {A} (e : start_exn) : ST A := ([], SRaise e).

Definition sbind {A B} (m : ST A) (k : A -> ST B) : ST B :=
  match m with
  | (t, SOk a) => let (t', r) := k a in ((t ++ t')%list, r)
  | (t, SRaise e) => (t, SRaise e)
  end.

Notation "x <~ m ;; k" := (sbind m (fun x => k))
  (at level 61, m at next level, right associativity).

(** A computation of the pipeline run during start-up. *)
Definition lift {A} (m : M A) : ST A :=
  match m with
  | (t, Ok a) => (t, SOk a)
  | (t, Raise e) => (t, SRaise (Other e))
  end.

(** [read_config], lines 74-77. *)
Definition read_config (file : config_file) : ST json :=
  match file with
  | FileUnreadable => sraise OSError
  | FileMalformed => sraise JSONDecodeError
  | FileJson configuration => sret configuration
  end.

(** [v[key]] for a text key: a missing key of a dict is a [KeyError], any
    other value a [TypeError]. *)
Definition subscript (v : json) (key : string) : ST json :=
  match v with
  | JObj members =>
      match assoc key members with
      | Some x => sret x
      | None => sraise (KeyError key)
      end
  | _ => sraise (Other (TypeError "indices must be integers"))
  end.

(** [os.getenv(name, default)]. *)
Definition getenv (env : environ) (name : string) (default : json) : json :=
  match assoc name env with
  | Some s => JStr s
  | None => default
  end.

(** [os.getenv(name, config[section][key])]: the default is evaluated
    before [os.getenv] is called. *)
Definition setting (env : environ) (config : json)
    (name section key : string) : ST json :=
  sec <~ subscript config section ;;
  default <~ subscript sec key ;;
  sret (getenv env name default).

(** [int(v)], for the port. *)
Definition int_of_json (v : json) : ST Z :=
  match v with
  | JStr s =>
      match int_of_string s with
      | Some z => sret z
      | None => sraise (Other (ValueError "invalid literal for int()"))
      end
  | JInt z => sret z
  | JFloat q => sret (Qtrunc (round_b64 q))
  | JBool b => sret (if b then 1 else 0)
  | JNull | JArr _ | JObj _ =>
      sraise (Other (TypeError "int() argument must be a string or a number"))
  end.

Record settings : Type := mkSettings {
  ROUTER_IP : json;
  ROUTER_PORT : json;
  DOWNLOAD_QUEUE_NAME : json;
  UPLOAD_QUEUE_NAME : json;
  USERNAME : json;
  PASSWORD : json;
  port : Z;
  DSL_MODEM_IP : json;
  SNMP_COMMUNITY_STRING : json;
  SNMP_OID_DOWNSTREAM : json;
  SNMP_OID_UPSTREAM : json
}.

(** Lines 141-170: the RouterOS settings, the pool with [int(ROUTER_PORT)],
    the connection, then the SNMP settings. *)
Definition startup (env : environ) (file : config_file) (w : world)
  : ST (api * settings) :=
  config <~ read_config file ;;
  ROUTER_IP <~ setting env config "ROUTER_IP" "routeros" "router_ip" ;;
  ROUTER_PORT <~ setting env config "ROUTER_PORT" "routeros" "router_port" ;;
  DOWNLOAD_QUEUE_NAME <~
    setting env config "DOWNLOAD_QUEUE_NAME" "routeros"
      "download_queue_name" ;;
  UPLOAD_QUEUE_NAME <~
    setting env config "UPLOAD_QUEUE_NAME" "routeros" "upload_queue_name" ;;
  USERNAME <~ setting env config "ROUTER_USERNAME" "routeros" "username" ;;
  PASSWORD <~ setting env config "ROUTER_PASSWORD" "routeros" "password" ;;
  port <~ int_of_json ROUTER_PORT ;;
  a <~ lift (get_api w) ;;
  DSL_MODEM_IP <~ setting env config "DSL_MODEM_IP" "snmp" "dsl_modem_ip" ;;
  SNMP_COMMUNITY_STRING <~
    setting env config "SNMP_COMMUNITY_STRING" "snmp" "community_string" ;;
  SNMP_OID_DOWNSTREAM <~
    setting env config "SNMP_OID_DOWNSTREAM" "snmp" "snmp_oid_downstream" ;;
  SNMP_OID_UPSTREAM <~
    setting env config "SNMP_OID_UPSTREAM" "snmp" "snmp_oid_upstream" ;;
  sret (a, mkSettings ROUTER_IP ROUTER_PORT DOWNLOAD_QUEUE_NAME
             UPLOAD_QUEUE_NAME USERNAME PASSWORD port DSL_MODEM_IP
             SNMP_COMMUNITY_STRING SNMP_OID_DOWNSTREAM SNMP_OID_UPSTREAM).

(** The settings by environment variable, section and key. *)
Definition settings_table
  : list (string * string * string * (settings -> json)) :=
  [ ("ROUTER_IP", "routeros", "router_ip", ROUTER_IP);
    ("ROUTER_PORT", "routeros", "router_port", ROUTER_PORT);
    ("DOWNLOAD_QUEUE_NAME", "routeros", "download_queue_name",
       DOWNLOAD_QUEUE_NAME);
    ("UPLOAD_QUEUE_NAME", "routeros", "upload_queue_name",
       UPLOAD_QUEUE_NAME);
    ("ROUTER_USERNAME", "routeros", "username", USERNAME);
    ("ROUTER_PASSWORD", "routeros", "password", PASSWORD);
    ("DSL_MODEM_IP", "snmp", "dsl_modem_ip", DSL_MODEM_IP);
    ("SNMP_COMMUNITY_STRING", "snmp", "community_string",
       SNMP_COMMUNITY_STRING);
    ("SNMP_OID_DOWNSTREAM", "snmp", "snmp_oid_downstream",
       SNMP_OID_DOWNSTREAM);
    ("SNMP_OID_UPSTREAM", "snmp", "snmp_oid_upstream", SNMP_OID_UPSTREAM) ]%string.

(** [config[section][key]] when both lookups succeed. *)
Definition file_value (file : config_file) (section key : string)
  : option json :=
  match file with
  | FileJson (JObj top) =>
      match assoc section top with
      | Some (JObj members) => assoc key members
      | _ => None
      end
  | _ => None
  end.

End Startup.



(** A complete [config.json], an environment that overrides two settings,
    and a file whose [snmp] section lacks the upstream OID. *)
Definition routeros0 : Startup.json :=
  Startup.JObj
    [ ("router_ip", Startup.JStr "192.0.2.254");
      ("router_port", Startup.JInt 8729);
      ("download_queue_name", Startup.JStr "download");
      ("upload_queue_name", Startup.JStr "upload");
      ("username", Startup.JStr "admin");
      ("password", Startup.JStr "secret") ]%string.

Definition file0 : Startup.config_file :=
  Startup.FileJson
    (Startup.JObj
       [ ("routeros", routeros0);
         ("snmp",
          Startup.JObj
            [ ("dsl_modem_ip", Startup.JStr "192.0.2.1");
              ("community_string", Startup.JStr "public");
              ("snmp_oid_downstream", Startup.JStr "oid.down");
              ("snmp_oid_upstream", Startup.JStr "oid.up") ]) ]%string).

Definition file_no_upstream_oid : Startup.config_file :=
  Startup.FileJson
    (Startup.JObj
       [ ("routeros", routeros0);
         ("snmp",
          Startup.JObj
            [ ("dsl_modem_ip", Startup.JStr "192.0.2.1");
              ("community_string", Startup.JStr "public");
              ("snmp_oid_downstream", Startup.JStr "oid.down") ]) ]%string).

Definition env0 : Startup.environ :=
  [ ("ROUTER_PORT", "8728"); ("DOWNLOAD_QUEUE_NAME", "wan-down") ]%string.

Definition settings0 : Startup.settings :=
  Startup.mkSettings
    (Startup.JStr "192.0.2.254") (Startup.JStr "8728")
    (Startup.JStr "wan-down") (Startup.JStr "upload")
    (Startup.JStr "admin") (Startup.JStr "secret") 8728
    (Startup.JStr "192.0.2.1") (Startup.JStr "public")
    (Startup.JStr "oid.down") (Startup.JStr "oid.up").

(** ** The limit computation *)

(** The two rounding policies the specification names, for comparison with
    the code: [floor] and round-half-up of the exact product. *)
Definition spec_computeLimit (r : Z) (m : Q) : Z :=
  Qfloor (inject_Z r * (1 - m)).

Definition spec_round_half_up (q : Q) : Z := Qfloor (q + (1 # 2)).

(** The float [number * (percentage / 100)] of line 86 for a rate [r] read
    from the modem, before pyasn1 truncates it: the rate as a float, times
    the float nearest to the hundredth of the percentage, rounded. *)
Definition margin_float (r : Z) (pct : pynum) : Q :=
  round_b64 (round_b64 (inject_Z r) * round_b64 (to_Q pct / 100)).

(** A percentage as the script writes it: a Python [int] or [float], not a
    value read over SNMP. *)
Definition is_plain (x : pynum) : bool :=
  match x with
  | SnmpInt _ => false
  | PyInt _ | PyFloat _ => true
  end.

(** The exponent of the scaling that [round_b64] applies to [q]. *)
Definition quantum_exp (q : Q) : Z := Z.min (52 - binade (Qabs q)) 1074.

(** ** Rounding to binary64 *)

Section Rounding.
Local Open Scope Q_scope.

Lemma Qfloor_unique (x : Q) (n : Z) :
  inject_Z n <= x -> x < inject_Z (n + 1) -> Qfloor x = n.
Proof.
  intros Hlo Hhi.
  pose proof (Qfloor_le x) as Hf. pose proof (Qlt_floor x) as Hg.
  assert (H1 : (Qfloor x < n + 1)%Z).
  { rewrite Zlt_Qlt. eapply Qle_lt_trans; eauto. }
  assert (H2 : (n < Qfloor x + 1)%Z).
  { rewrite Zlt_Qlt. eapply Qle_lt_trans; eauto. }
  lia.
Qed.

Lemma pow2_pos (e : Z) : 0 < 2 ^ e.
Proof. apply Qpower_0_lt. reflexivity. Qed.

Lemma pow2_add (a b : Z) : 2 ^ (a + b) == 2 ^ a * 2 ^ b.
Proof. apply Qpower_plus. discriminate. Qed.

Lemma pow2_le (a b : Z) : (a <= b)%Z -> 2 ^ a <= 2 ^ b.
Proof. intros H. apply Qpower_le_compat_l; [exact H | discriminate]. Qed.

Lemma pow2_lt (a b : Z) : (a < b)%Z -> 2 ^ a < 2 ^ b.
Proof. intros H. apply Qpower_lt_compat_l; [exact H | reflexivity]. Qed.

Lemma pow2_lt_inv (a b : Z) : 2 ^ a < 2 ^ b -> (a < b)%Z.
Proof. intros H. apply (Qpower_lt_compat_l_inv 2); [exact H | reflexivity]. Qed.

Lemma pow2_Z (n : Z) : (0 <= n)%Z -> 2 ^ n == inject_Z (2 ^ n).
Proof. intros H. symmetry. apply (Zpower_Qpower 2 n H). Qed.

Lemma pow2_cancel (s : Z) : 2 ^ s * 2 ^ (- s) == 1.
Proof. rewrite <- pow2_add. replace (s + - s)%Z with 0%Z by lia. reflexivity. Qed.

(** Nearest integer. *)
Lemma Qrne_near (y : Q) :
  y - (1 # 2) <= inject_Z (Qrne y) /\ inject_Z (Qrne y) <= y + (1 # 2).
Proof.
  unfold Qrne.
  pose proof (Qfloor_le y) as L. pose proof (Qlt_floor y) as U.
  rewrite inject_Z_plus in U. change (inject_Z 1) with 1 in U.
  destruct (Qcompare_spec (y - inject_Z (Qfloor y)) (1 # 2)) as [E | E | E].
  - destruct (Z.even (Qfloor y)); rewrite ?inject_Z_plus;
      change (inject_Z 1) with 1; split; lra.
  - split; lra.
  - rewrite inject_Z_plus. change (inject_Z 1) with 1. split; lra.
Qed.

Lemma Qrne_le (y : Q) (M : Z) : y <= inject_Z M -> (Qrne y <= M)%Z.
Proof.
  intros H. destruct (Qrne_near y) as [_ U].
  assert (L : inject_Z (Qrne y) < inject_Z (M + 1)).
  { rewrite inject_Z_plus. change (inject_Z 1) with 1. lra. }
  rewrite <- Zlt_Qlt in L. lia.
Qed.

Lemma Qrne_ge (y : Q) (M : Z) : inject_Z M <= y -> (M <= Qrne y)%Z.
Proof.
  intros H. destruct (Qrne_near y) as [L _].
  assert (G : inject_Z (M - 1) < inject_Z (Qrne y)).
  { unfold Z.sub. rewrite inject_Z_plus, inject_Z_opp.
    change (inject_Z 1) with 1. lra. }
  rewrite <- Zlt_Qlt in G. lia.
Qed.

Lemma Qrne_lt_half (y : Q) (M : Z) :
  y < inject_Z M - (1 # 2) -> (Qrne y <= M - 1)%Z.
Proof.
  intros H. destruct (Qrne_near y) as [_ U].
  assert (L : inject_Z (Qrne y) < inject_Z M) by lra.
  rewrite <- Zlt_Qlt in L. lia.
Qed.

Lemma Qrne_Z (k : Z) : Qrne (inject_Z k) = k.
Proof.
  apply Z.le_antisymm; [apply Qrne_le | apply Qrne_ge]; apply Qle_refl.
Qed.

#[global] Instance Qrne_comp : Proper (Qeq ==> eq) Qrne.
Proof.
  intros x y E. unfold Qrne. rewrite (Qfloor_comp _ _ E).
  assert (C : (x - inject_Z (Qfloor y) ?= 1 # 2)
              = (y - inject_Z (Qfloor y) ?= 1 # 2)) by now rewrite E.
  rewrite C. reflexivity.
Qed.

(** The binade of a positive rational. *)
Lemma binade_spec (q : Q) :
  0 < q -> 2 ^ binade q <= q /\ q < 2 ^ (binade q + 1).
Proof.
  intros Hq. destruct q as [n d]. unfold binade. cbn [Qnum Qden].
  assert (Hn : (0 < n)%Z) by (unfold Qlt in Hq; simpl in Hq; lia).
  set (a := Z.log2 n). set (b := Z.log2 (Zpos d)).
  destruct (Z.log2_spec n Hn) as [La Ua]. fold a in La, Ua.
  destruct (Z.log2_spec (Zpos d) eq_refl) as [Lb Ub]. fold b in Lb, Ub.
  assert (Ha : (0 <= a)%Z) by apply Z.log2_nonneg.
  assert (Hb : (0 <= b)%Z) by apply Z.log2_nonneg.
  assert (Qa : 2 ^ a <= inject_Z n).
  { rewrite pow2_Z by exact Ha. rewrite <- Zle_Qle. exact La. }
  assert (Qa' : inject_Z n < 2 ^ (a + 1)).
  { rewrite pow2_Z by lia. rewrite <- Zlt_Qlt.
    replace (a + 1)%Z with (Z.succ a) by lia. exact Ua. }
  assert (Qb : 2 ^ b <= inject_Z (Zpos d)).
  { rewrite pow2_Z by exact Hb. rewrite <- Zle_Qle. exact Lb. }
  assert (Qb' : inject_Z (Zpos d) < 2 ^ (b + 1)).
  { rewrite pow2_Z by lia. rewrite <- Zlt_Qlt.
    replace (b + 1)%Z with (Z.succ b) by lia. exact Ub. }
  assert (Hd : 0 < inject_Z (Zpos d)) by reflexivity.
  assert (E : n # d == inject_Z n / inject_Z (Zpos d)) by apply Qmake_Qdiv.
  destruct (Qle_bool (2 ^ (a - b)) (n # d)) eqn:T.
  - apply Qle_bool_iff in T. split; [exact T |].
    rewrite E. apply Qlt_shift_div_r; [exact Hd |].
    eapply Qlt_le_trans; [exact Qa' |].
    replace (a + 1)%Z with ((a - b + 1) + b)%Z by lia.
    rewrite pow2_add. apply Qmult_le_l; [apply pow2_pos | exact Qb].
  - assert (T' : n # d < 2 ^ (a - b)).
    { apply Qnot_le_lt. intros C. apply Qle_bool_iff in C. congruence. }
    replace (a - b - 1 + 1)%Z with (a - b)%Z by lia.
    split; [| exact T'].
    rewrite E. apply Qle_shift_div_l; [exact Hd |].
    eapply Qle_trans; [| exact Qa].
    replace a with ((a - b - 1) + (b + 1))%Z at 2 by lia.
    rewrite pow2_add. apply Qmult_le_l; [apply pow2_pos |].
    apply Qlt_le_weak. exact Qb'.
Qed.

Lemma binade_unique (q : Q) (e : Z) :
  2 ^ e <= q -> q < 2 ^ (e + 1) -> binade q = e.
Proof.
  intros L U.
  assert (Hq : 0 < q) by (eapply Qlt_le_trans; [apply (pow2_pos e) | exact L]).
  destruct (binade_spec q Hq) as [L' U'].
  assert (H1 : (e < binade q + 1)%Z).
  { apply pow2_lt_inv. eapply Qle_lt_trans; eauto. }
  assert (H2 : (binade q < e + 1)%Z).
  { apply pow2_lt_inv. eapply Qle_lt_trans; eauto. }
  lia.
Qed.

Lemma binade_comp (x y : Q) : 0 < x -> x == y -> binade x = binade y.
Proof.
  intros Hx E. symmetry. destruct (binade_spec x Hx) as [L U].
  apply binade_unique; rewrite <- E; assumption.
Qed.

Lemma binade_lt (q : Q) (E : Z) : 0 < q -> q < 2 ^ E -> (binade q < E)%Z.
Proof.
  intros Hq H. destruct (binade_spec q Hq) as [L _].
  apply pow2_lt_inv. eapply Qle_lt_trans; eauto.
Qed.


Lemma round_b64_zero (q : Q) : q == 0 -> round_b64 q = 0.
Proof.
  intros E. unfold round_b64.
  assert (H : Qeq_bool q 0 = true) by now apply Qeq_bool_iff.
  rewrite H. reflexivity.
Qed.

Lemma round_b64_nonzero (q : Q) :
  ~ q == 0 ->
  round_b64 q
  = inject_Z (Qrne (q * 2 ^ quantum_exp q)) * 2 ^ (- quantum_exp q).
Proof.
  intros N. unfold round_b64.
  destruct (Qeq_bool q 0) eqn:E; [| reflexivity].
  apply Qeq_bool_iff in E. contradiction.
Qed.

Lemma Qabs_pos_lt (q : Q) : ~ q == 0 -> 0 < Qabs q.
Proof.
  intros N. destruct (Qlt_le_dec 0 (Qabs q)) as [H | H]; [exact H |].
  exfalso. apply N. pose proof (Qabs_nonneg q) as P.
  assert (Z0 : Qabs q == 0) by (apply Qle_antisym; assumption).
  destruct (Qabs_Qle_condition q 0) as [C _].
  destruct C as [C1 C2]; [rewrite Z0; apply Qle_refl |].
  apply Qle_antisym; [exact C2 |]. exact C1.
Qed.

#[global] Instance round_b64_comp : Proper (Qeq ==> Qeq) round_b64.
Proof.
  intros x y E.
  destruct (Qeq_dec x 0) as [Z0 | N].
  - rewrite (round_b64_zero x Z0), (round_b64_zero y); [reflexivity |].
    now rewrite <- E.
  - assert (N' : ~ y == 0) by now rewrite <- E.
    rewrite (round_b64_nonzero x N), (round_b64_nonzero y N').
    assert (S : quantum_exp x = quantum_exp y).
    { unfold quantum_exp. f_equal. f_equal.
      apply binade_comp; [now apply Qabs_pos_lt | now rewrite E]. }
    rewrite S. rewrite E. reflexivity.
Qed.

Lemma quantum_exp_pos (q : Q) :
  0 < q -> quantum_exp q = Z.min (52 - binade q) 1074.
Proof.
  intros H. unfold quantum_exp. f_equal. f_equal.
  apply binade_comp; [apply Qabs_pos_lt |].
  - intros E. rewrite E in H. discriminate.
  - apply Qabs_pos. now apply Qlt_le_weak.
Qed.

Lemma quantum_exp_ge (q : Q) (E : Z) :
  0 < q -> q < 2 ^ E -> (-1021 <= E)%Z -> (53 - E <= quantum_exp q)%Z.
Proof.
  intros Hq H HE. rewrite (quantum_exp_pos q Hq).
  pose proof (binade_lt q E Hq H). lia.
Qed.

(** Scaling, rounding to the nearest integer and scaling back moves a
    value by at most half the quantum. *)
Lemma scaled_rne_near (y : Q) (s : Z) :
  y - 2 ^ (- s) * (1 # 2)
    <= inject_Z (Qrne (y * 2 ^ s)) * 2 ^ (- s)
  /\ inject_Z (Qrne (y * 2 ^ s)) * 2 ^ (- s)
    <= y + 2 ^ (- s) * (1 # 2).
Proof.
  destruct (Qrne_near (y * 2 ^ s)) as [L U].
  pose proof (pow2_pos (- s)) as B. pose proof (pow2_cancel s) as C.
  set (R := inject_Z (Qrne (y * 2 ^ s))) in *.
  assert (Y : y == y * 2 ^ s * 2 ^ (- s)).
  { rewrite <- Qmult_assoc, C. ring. }
  split.
  - assert (H : (y * 2 ^ s - (1 # 2)) * 2 ^ (- s) <= R * 2 ^ (- s)).
    { apply Qmult_le_compat_r; [exact L | now apply Qlt_le_weak]. }
    lra.
  - assert (H : R * 2 ^ (- s) <= (y * 2 ^ s + (1 # 2)) * 2 ^ (- s)).
    { apply Qmult_le_compat_r; [exact U | now apply Qlt_le_weak]. }
    lra.
Qed.

Lemma round_b64_nonneg (q : Q) : 0 <= q -> 0 <= round_b64 q.
Proof.
  intros H. destruct (Qeq_dec q 0) as [Z0 | N].
  - rewrite (round_b64_zero q Z0). discriminate.
  - rewrite (round_b64_nonzero q N).
    apply Qmult_le_0_compat; [| apply Qlt_le_weak, pow2_pos].
    change 0 with (inject_Z 0). rewrite <- Zle_Qle. apply Qrne_ge.
    change (inject_Z 0) with 0.
    apply Qmult_le_0_compat; [exact H | apply Qlt_le_weak, pow2_pos].
Qed.

(** Absolute error below [2^E]. *)
Lemma round_b64_error (q : Q) (E : Z) :
  0 <= q -> q < 2 ^ E -> (-1021 <= E)%Z ->
  q - 2 ^ (E - 54) <= round_b64 q /\ round_b64 q <= q + 2 ^ (E - 54).
Proof.
  intros H0 H HE. pose proof (pow2_pos (E - 54)) as P.
  destruct (Qeq_dec q 0) as [Z0 | N].
  - rewrite (round_b64_zero q Z0). rewrite Z0. split; lra.
  - assert (Hq : 0 < q).
    { destruct (Qle_lt_or_eq _ _ H0) as [L | L]; [exact L |].
      exfalso. apply N. now symmetry. }
    rewrite (round_b64_nonzero q N).
    pose proof (quantum_exp_ge q E Hq H HE) as S.
    destruct (scaled_rne_near q (quantum_exp q)) as [L U].
    assert (B : 2 ^ (- quantum_exp q) * (1 # 2) <= 2 ^ (E - 54)).
    { replace (E - 54)%Z with ((E - 53) + -1)%Z by lia.
      rewrite pow2_add. change (2 ^ (-1)) with (1 # 2).
      apply Qmult_le_compat_r; [| discriminate].
      apply pow2_le. lia. }
    split; lra.
Qed.

(** Integers below [2^53] are binary64 numbers. *)
Lemma round_b64_int (z : Z) :
  (0 <= z < 2 ^ 53)%Z -> round_b64 (inject_Z z) == inject_Z z.
Proof.
  intros [H0 H]. destruct (Z.eq_dec z 0) as [-> | N].
  - reflexivity.
  - assert (Hq : 0 < inject_Z z).
    { change 0 with (inject_Z 0). rewrite <- Zlt_Qlt. lia. }
    assert (NZ : ~ inject_Z z == 0).
    { intros E. rewrite E in Hq. discriminate. }
    rewrite (round_b64_nonzero _ NZ).
    assert (S : (0 <= quantum_exp (inject_Z z))%Z).
    { assert (T : inject_Z z < 2 ^ 53).
      { rewrite (pow2_Z 53) by lia. rewrite <- Zlt_Qlt. exact H. }
      pose proof (quantum_exp_ge (inject_Z z) 53 Hq T ltac:(lia)). lia. }
    set (s := quantum_exp (inject_Z z)) in *.
    assert (I : inject_Z z * 2 ^ s == inject_Z (z * 2 ^ s)).
    { rewrite inject_Z_mult, (pow2_Z s S). reflexivity. }
    rewrite I, Qrne_Z, <- I, <- Qmult_assoc, pow2_cancel. ring.
Qed.

(** The floor of a rounded value: when [q] keeps a sixteenth away from the
    next integer, rounding does not reach it. *)
Lemma round_b64_floor (q : Q) (k : Z) :
  (0 <= k)%Z -> inject_Z k <= q -> q < inject_Z k + (15 # 16) ->
  q < 2 ^ 50 ->
  Qfloor (round_b64 q) = k.
Proof.
  intros Hk L U H.
  assert (H0 : 0 <= q).
  { eapply Qle_trans; [| exact L]. change 0 with (inject_Z 0).
    rewrite <- Zle_Qle. exact Hk. }
  destruct (Qeq_dec q 0) as [Z0 | N].
  - rewrite (round_b64_zero q Z0). rewrite Z0 in L, U.
    assert (K : (k <= 0)%Z) by (rewrite Zle_Qle; exact L).
    change (Qfloor 0) with 0%Z. lia.
  - assert (Hq : 0 < q).
    { destruct (Qle_lt_or_eq _ _ H0) as [P | P]; [exact P |].
      exfalso. apply N. now symmetry. }
    rewrite (round_b64_nonzero q N).
    pose proof (quantum_exp_ge q 50 Hq H ltac:(lia)) as S.
    set (s := quantum_exp q) in *.
    assert (S0 : (0 <= s)%Z) by lia.
    pose proof (pow2_pos s) as A. pose proof (pow2_pos (- s)) as B.
    pose proof (pow2_cancel s) as C.
    assert (A8 : 8 <= 2 ^ s).
    { change 8 with (2 ^ 3). apply pow2_le. lia. }
    assert (Ik : forall j, inject_Z j * 2 ^ s == inject_Z (j * 2 ^ s)).
    { intros j. rewrite inject_Z_mult, (pow2_Z s S0). reflexivity. }
    assert (Lo : (k * 2 ^ s <= Qrne (q * 2 ^ s))%Z).
    { apply Qrne_ge. rewrite <- Ik.
      apply Qmult_le_compat_r; [exact L | now apply Qlt_le_weak]. }
    assert (Hi : (Qrne (q * 2 ^ s) <= (k + 1) * 2 ^ s - 1)%Z).
    { apply Qrne_lt_half. rewrite <- Ik, inject_Z_plus.
      change (inject_Z 1) with 1.
      assert (T : q * 2 ^ s < (inject_Z k + (15 # 16)) * 2 ^ s).
      { apply Qmult_lt_compat_r; assumption. }
      lra. }
    apply Qfloor_unique.
    + rewrite Zle_Qle, <- Ik in Lo.
      assert (T : inject_Z k * 2 ^ s * 2 ^ (- s)
                  <= inject_Z (Qrne (q * 2 ^ s)) * 2 ^ (- s)).
      { apply Qmult_le_compat_r; [exact Lo | now apply Qlt_le_weak]. }
      rewrite <- Qmult_assoc, C in T. lra.
    + assert (Hi' : inject_Z (Qrne (q * 2 ^ s)) < inject_Z (k + 1) * 2 ^ s).
      { rewrite Ik, <- Zlt_Qlt. lia. }
      assert (T : inject_Z (Qrne (q * 2 ^ s)) * 2 ^ (- s)
                  < inject_Z (k + 1) * 2 ^ s * 2 ^ (- s)).
      { apply Qmult_lt_compat_r; assumption. }
      rewrite <- Qmult_assoc, C in T. lra.
Qed.

(** A rounded value is at most twice the exact one. *)
Lemma round_b64_le_double (q : Q) : 0 <= q -> round_b64 q <= 2 * q.
Proof.
  intros H0. destruct (Qeq_dec q 0) as [Z0 | N].
  - rewrite (round_b64_zero q Z0). rewrite Z0. discriminate.
  - assert (Hq : 0 < q).
    { destruct (Qle_lt_or_eq _ _ H0) as [P | P]; [exact P |].
      exfalso. apply N. now symmetry. }
    rewrite (round_b64_nonzero q N), (quantum_exp_pos q Hq).
    destruct (binade_spec q Hq) as [L _].
    destruct (Z.min_spec (52 - binade q) 1074) as [[C ->] | [C ->]].
    + destruct (scaled_rne_near q (52 - binade q)) as [_ U].
      assert (B : 2 ^ (- (52 - binade q)) * (1 # 2) <= 2 ^ binade q).
      { replace (- (52 - binade q))%Z with (binade q + -52)%Z by lia.
        rewrite pow2_add. rewrite <- Qmult_assoc.
        rewrite <- (Qmult_1_r (2 ^ binade q)) at 2.
        apply Qmult_le_l; [apply pow2_pos | discriminate]. }
      lra.
    + pose proof (pow2_pos 1074) as A.
      pose proof (pow2_pos (Z.opp 1074)) as B.
      pose proof (pow2_cancel 1074) as K.
      set (a := 2 ^ 1074) in *. set (b := 2 ^ Z.opp 1074) in *.
      clearbody a b.
      destruct (Qlt_le_dec (q * a) (1 # 2)) as [T | T].
      * assert (R : (Qrne (q * a) <= 1 - 1)%Z).
        { apply Qrne_lt_half. change (inject_Z 1) with 1. lra. }
        assert (R' : inject_Z (Qrne (q * a)) <= 0).
        { change 0 with (inject_Z 0). rewrite <- Zle_Qle. lia. }
        assert (F : inject_Z (Qrne (q * a)) * b <= 0 * b).
        { apply Qmult_le_compat_r; [exact R' | now apply Qlt_le_weak]. }
        lra.
      * assert (U : inject_Z (Qrne (q * a)) * b <= (q * a + (1 # 2)) * b).
        { apply Qmult_le_compat_r; [| now apply Qlt_le_weak].
          apply (Qrne_near (q * a)). }
        assert (F : (1 # 2) * b <= q * a * b).
        { apply Qmult_le_compat_r; [exact T | now apply Qlt_le_weak]. }
        rewrite <- Qmult_assoc, K in F.
        assert (Y : q * a * b == q) by (rewrite <- Qmult_assoc, K; ring).
        lra.
Qed.

Lemma Qmult_between (r a c b : Q) :
  0 <= r -> a <= c -> c <= b -> r * a <= r * c /\ r * c <= r * b.
Proof.
  intros Hr H1 H2.
  split; rewrite !(Qmult_comm r); apply Qmult_le_compat_r; assumption.
Qed.

Lemma round_b64_pos (q : Q) :
  0 < q ->
  round_b64 q
  = inject_Z (Qrne (q * 2 ^ Z.min (52 - binade q) 1074))
    * 2 ^ (- Z.min (52 - binade q) 1074).
Proof.
  intros H.
  assert (N : ~ q == 0) by (intros E; rewrite E in H; discriminate).
  rewrite (round_b64_nonzero q N), (quantum_exp_pos q H). reflexivity.
Qed.

Lemma binade_ge (q : Q) (E : Z) : 2 ^ E <= q -> (E <= binade q)%Z.
Proof.
  intros H.
  assert (Hq : 0 < q) by (eapply Qlt_le_trans; [apply (pow2_pos E) | exact H]).
  destruct (binade_spec q Hq) as [_ U].
  assert (T : (E < binade q + 1)%Z).
  { apply pow2_lt_inv. eapply Qle_lt_trans; eauto. }
  lia.
Qed.

Lemma pow2_merge (a b c : Z) : (a + b = c)%Z -> 2 ^ a * 2 ^ b == 2 ^ c.
Proof. intros <-. symmetry. apply pow2_add. Qed.

(** The product of a rounded rate by a factor of at most [1 - 2^-53], once
    rounded, stays below the rate. *)
Lemma product_below_rate (r : Z) (c : Q) :
  (1 <= r)%Z -> 0 <= c -> c <= 1 - 2 ^ (-53) ->
  round_b64 (round_b64 (inject_Z r) * c) < inject_Z r.
Proof.
  intros Hr C0 C1.
  set (R := inject_Z r).
  assert (R1 : 1 <= R).
  { unfold R. change 1 with (inject_Z 1). rewrite <- Zle_Qle. exact Hr. }
  assert (R0 : 0 < R) by lra.
  pose proof (round_b64_nonneg R (Qlt_le_weak _ _ R0)) as B0.
  pose proof (round_b64_le_double R (Qlt_le_weak _ _ R0)) as B2.
  assert (U53 : 2 ^ (-53) == 1 # 9007199254740992) by reflexivity.
  destruct (Qlt_le_dec (1 # 8) c) as [Cbig | Csmall].
  2:{ assert (X0 : 0 <= round_b64 R * c) by now apply Qmult_le_0_compat.
      pose proof (round_b64_le_double _ X0) as P2.
      destruct (Qmult_between (round_b64 R) 0 c (1 # 8) B0 C0 Csmall)
        as [_ X8].
      set (b := round_b64 R) in *. set (x := b * c) in *.
      set (P := round_b64 x) in *. clearbody b x P. lra. }
  (* the rate on its grid *)
  destruct (binade_spec R R0) as [RL RU].
  set (er := binade R) in *.
  assert (Er : (0 <= er)%Z).
  { apply (binade_ge R 0). exact R1. }
  assert (Sr : Z.min (52 - er) 1074 = (52 - er)%Z) by lia.
  pose proof (round_b64_pos R R0) as Bs. fold er in Bs. rewrite Sr in Bs.
  set (sr := (52 - er)%Z) in *.
  set (N := Qrne (R * 2 ^ sr)) in *.
  pose proof (pow2_pos sr) as Asr. pose proof (pow2_pos (- sr)) as Bsr.
  pose proof (pow2_cancel sr) as Ksr.
  assert (RsL : 2 ^ 52 <= R * 2 ^ sr).
  { rewrite <- (pow2_merge er sr 52) by (unfold sr; lia).
    apply Qmult_le_compat_r; [exact RL | now apply Qlt_le_weak]. }
  assert (RsU : R * 2 ^ sr < 2 ^ 53).
  { rewrite <- (pow2_merge (er + 1) sr 53) by (unfold sr; lia).
    apply Qmult_lt_compat_r; assumption. }
  assert (NL : (2 ^ 52 <= N)%Z).
  { apply Qrne_ge. rewrite <- (pow2_Z 52) by lia. exact RsL. }
  destruct (Qrne_near (R * 2 ^ sr)) as [_ Nn]. fold N in Nn.
  set (b := round_b64 R) in *.
  assert (Bb : b == inject_Z N * 2 ^ (- sr)) by (rewrite Bs; reflexivity).
  assert (bL : 2 ^ er <= b).
  { rewrite Bb, <- (pow2_merge 52 (- sr) er) by (unfold sr; lia).
    apply Qmult_le_compat_r; [| now apply Qlt_le_weak].
    rewrite (pow2_Z 52) by lia. rewrite <- Zle_Qle. exact NL. }
  assert (bU : b <= 2 ^ (er + 1)).
  { rewrite Bb, <- (pow2_merge 53 (- sr) (er + 1)) by (unfold sr; lia).
    apply Qmult_le_compat_r; [| now apply Qlt_le_weak].
    rewrite (pow2_Z 53) by lia. rewrite <- Zle_Qle.
    apply Qrne_le. rewrite <- (pow2_Z 53) by lia.
    now apply Qlt_le_weak. }
  assert (rb : b - 2 ^ (- sr) * (1 # 2) <= R).
  { assert (T : inject_Z N * 2 ^ (- sr)
                <= (R * 2 ^ sr + (1 # 2)) * 2 ^ (- sr)).
    { apply Qmult_le_compat_r; [exact Nn | now apply Qlt_le_weak]. }
    assert (Y : R * 2 ^ sr * 2 ^ (- sr) == R).
    { rewrite <- Qmult_assoc, Ksr. ring. }
    rewrite <- Bb in T. lra. }
  pose proof (pow2_pos er) as Per.
  assert (b0 : 0 < b) by lra.
  (* the product *)
  set (x := b * c).
  destruct (Qmult_between b (1 # 8) c (1 - 2 ^ (-53)) B0
              (Qlt_le_weak _ _ Cbig) C1) as [xL xU].
  fold x in xL, xU.
  assert (xlt : x < b).
  { rewrite U53 in xU. lra. }
  assert (x8 : 2 ^ (er - 3) <= x).
  { rewrite <- (pow2_merge er (-3) (er - 3)) by lia.
    change (2 ^ (-3)) with (1 # 8).
    assert (T : 2 ^ er * (1 # 8) <= b * (1 # 8)).
    { apply Qmult_le_compat_r; [exact bL | discriminate]. }
    lra. }
  assert (x0 : 0 < x).
  { eapply Qlt_le_trans; [apply (pow2_pos (er - 3)) | exact x8]. }
  destruct (binade_spec x x0) as [XL XU].
  set (ex := binade x) in *.
  assert (Ex1 : (er - 3 <= ex)%Z) by (apply binade_ge; exact x8).
  assert (Ex2 : (ex < er + 1)%Z).
  { apply binade_lt; [exact x0 |]. lra. }
  assert (Sx : Z.min (52 - ex) 1074 = (52 - ex)%Z) by lia.
  pose proof (round_b64_pos x x0) as Ps. fold ex in Ps. rewrite Sx in Ps.
  set (sx := (52 - ex)%Z) in *.
  pose proof (pow2_pos sx) as Asx. pose proof (pow2_pos (- sx)) as Bsx.
  pose proof (pow2_cancel sx) as Ksx.
  set (k := (er - ex)%Z).
  assert (Hk : (0 <= k)%Z) by (unfold k; lia).
  set (M := (N * 2 ^ k)%Z).
  assert (Mb : inject_Z M == b * 2 ^ sx).
  { unfold M. rewrite inject_Z_mult, <- (pow2_Z k Hk), Bb.
    rewrite <- Qmult_assoc, (pow2_merge (- sr) sx k) by (unfold sr, sx, k; lia).
    reflexivity. }
  set (Y := x * 2 ^ sx) in *.
  assert (YM : Y == inject_Z M * c).
  { unfold Y, x. rewrite Mb. ring. }
  assert (YL : 2 ^ 52 <= Y).
  { unfold Y. rewrite <- (pow2_merge ex sx 52) by (unfold sx; lia).
    apply Qmult_le_compat_r; [exact XL | now apply Qlt_le_weak]. }
  assert (YU : Y < 2 ^ 53).
  { unfold Y. rewrite <- (pow2_merge (ex + 1) sx 53) by (unfold sx; lia).
    apply Qmult_lt_compat_r; assumption. }
  assert (M0 : 0 < inject_Z M).
  { rewrite Mb. apply Qmult_lt_0_compat; assumption. }
  assert (YltM : Y < inject_Z M).
  { unfold Y. rewrite Mb. apply Qmult_lt_compat_r; assumption. }
  assert (ML : (2 ^ 52 + 1 <= M)%Z).
  { assert (T : inject_Z (2 ^ 52) < inject_Z M).
    { rewrite <- (pow2_Z 52) by lia. lra. }
    rewrite <- Zlt_Qlt in T. lia. }
  assert (MQ : 2 ^ 52 + 1 <= inject_Z M).
  { rewrite (pow2_Z 52) by lia. change 1 with (inject_Z 1).
    rewrite <- inject_Z_plus, <- Zle_Qle. exact ML. }
  assert (Yhalf : Y < inject_Z M - (1 # 2)).
  { destruct (Qmult_between (inject_Z M) 0 c (1 - 2 ^ (-53))
                (Qlt_le_weak _ _ M0) C0 C1) as [_ T].
    rewrite <- YM in T. rewrite U53 in T.
    change (2 ^ 52) with 4503599627370496 in MQ. lra. }
  pose proof (Qrne_lt_half Y M Yhalf) as Q1.
  assert (Q2 : (Qrne Y <= 2 ^ 53)%Z).
  { apply Qrne_le. rewrite <- (pow2_Z 53) by lia. now apply Qlt_le_weak. }
  set (P := round_b64 x) in *.
  assert (PQ : P == inject_Z (Qrne Y) * 2 ^ (- sx)) by (rewrite Ps; reflexivity).
  assert (P1 : P <= b - 2 ^ (- sx)).
  { rewrite PQ.
    assert (T : inject_Z (Qrne Y) * 2 ^ (- sx)
                <= (inject_Z M - 1) * 2 ^ (- sx)).
    { apply Qmult_le_compat_r; [| now apply Qlt_le_weak].
      change 1 with (inject_Z 1). unfold Qminus.
      rewrite <- inject_Z_opp, <- inject_Z_plus, <- Zle_Qle. lia. }
    assert (Z1 : inject_Z M * 2 ^ (- sx) == b).
    { rewrite Mb, <- Qmult_assoc, Ksx. ring. }
    lra. }
  assert (P2 : P <= 2 ^ (ex + 1)).
  { rewrite PQ, <- (pow2_merge 53 (- sx) (ex + 1)) by (unfold sx; lia).
    apply Qmult_le_compat_r; [| now apply Qlt_le_weak].
    rewrite (pow2_Z 53) by lia. rewrite <- Zle_Qle. exact Q2. }
  destruct (Z.eq_dec ex er) as [Eq | Ne].
  - assert (S : sx = sr) by (unfold sx, sr; lia). rewrite S in P1. lra.
  - assert (P3 : P <= 2 ^ er).
    { eapply Qle_trans; [exact P2 |]. apply pow2_le. lia. }
    destruct (Qlt_le_dec P R) as [Done | Bad]; [exact Done | exfalso].
    assert (Req : R == 2 ^ er) by (apply Qle_antisym; lra).
    assert (Neq : N = (2 ^ 52)%Z).
    { unfold N. rewrite Req, (pow2_merge er sr 52) by (unfold sr; lia).
      rewrite (pow2_Z 52) by lia. apply Qrne_Z. }
    assert (bR : b == R).
    { rewrite Bb, Neq, <- (pow2_Z 52) by lia.
      rewrite (pow2_merge 52 (- sr) er) by (unfold sr; lia).
      now symmetry. }
    lra.
Qed.


Lemma round_b64_nonpos (q : Q) : q <= 0 -> round_b64 q <= 0.
Proof.
  intros H. destruct (Qeq_dec q 0) as [Z0 | N].
  - rewrite (round_b64_zero q Z0). discriminate.
  - rewrite (round_b64_nonzero q N).
    pose proof (pow2_pos (quantum_exp q)) as A.
    pose proof (pow2_pos (- quantum_exp q)) as B.
    assert (T : (Qrne (q * 2 ^ quantum_exp q) <= 0)%Z).
    { apply Qrne_le. change (inject_Z 0) with 0.
      assert (X : q * 2 ^ quantum_exp q <= 0 * 2 ^ quantum_exp q).
      { apply Qmult_le_compat_r; [exact H | now apply Qlt_le_weak]. }
      lra. }
    assert (T' : inject_Z (Qrne (q * 2 ^ quantum_exp q)) <= 0).
    { change 0 with (inject_Z 0). rewrite <- Zle_Qle. exact T. }
    assert (X : inject_Z (Qrne (q * 2 ^ quantum_exp q))
                * 2 ^ (- quantum_exp q) <= 0 * 2 ^ (- quantum_exp q)).
    { apply Qmult_le_compat_r; [exact T' | now apply Qlt_le_weak]. }
    lra.
Qed.

(** A binary64 number below 100 is at most [100 - 2^-46]. *)
Lemma float_below_100 (q : Q) :
  round_b64 q < 100 -> round_b64 q <= 100 - 2 ^ (-46).
Proof.
  intros H.
  assert (U46 : 2 ^ (-46) == 1 # 70368744177664) by reflexivity.
  destruct (Qlt_le_dec 0 q) as [Hq | Hq].
  2:{ pose proof (round_b64_nonpos q Hq). rewrite U46. lra. }
  destruct (binade_spec q Hq) as [L U].
  pose proof (round_b64_pos q Hq) as S.
  remember (binade q) as e eqn:He. clear He.
  destruct (Z_lt_le_dec e 5) as [E4 | E5].
  - (* q < 32 *)
    pose proof (round_b64_le_double q (Qlt_le_weak _ _ Hq)) as D.
    assert (T : 2 ^ (e + 1) <= 2 ^ 5) by (apply pow2_le; lia).
    change (2 ^ 5) with 32 in T. rewrite U46. lra.
  - destruct (Z_lt_le_dec 6 e) as [E7 | E6].
    + (* q >= 128 *)
      exfalso.
      assert (Sm : Z.min (52 - e) 1074 = (52 - e)%Z) by lia.
      rewrite Sm in S.
      pose proof (pow2_pos (52 - e)) as A.
      pose proof (pow2_pos (- (52 - e))) as B.
      assert (N : (2 ^ 52 <= Qrne (q * 2 ^ (52 - e)))%Z).
      { apply Qrne_ge. rewrite <- (pow2_Z 52) by lia.
        rewrite <- (pow2_merge e (52 - e) 52) by lia.
        apply Qmult_le_compat_r; [exact L | now apply Qlt_le_weak]. }
      assert (V : 2 ^ e <= round_b64 q).
      { rewrite S, <- (pow2_merge 52 (- (52 - e)) e) by lia.
        apply Qmult_le_compat_r; [| now apply Qlt_le_weak].
        rewrite (pow2_Z 52) by lia. rewrite <- Zle_Qle. exact N. }
      assert (T : 2 ^ 7 <= 2 ^ e) by (apply pow2_le; lia).
      change (2 ^ 7) with 128 in T. lra.
    + assert (Sm : Z.min (52 - e) 1074 = (52 - e)%Z) by lia.
      rewrite Sm in S.
      pose proof (pow2_pos (52 - e)) as A.
      pose proof (pow2_pos (- (52 - e))) as B.
      pose proof (pow2_cancel (52 - e)) as K.
      set (N := Qrne (q * 2 ^ (52 - e))) in *.
      destruct (Z.eq_dec e 5) as [-> | Ne].
      * (* 32 <= q < 64 *)
        assert (NU : (N <= 2 ^ 53)%Z).
        { apply Qrne_le. rewrite <- (pow2_Z 53) by lia.
          rewrite <- (pow2_merge (5 + 1) (52 - 5) 53) by lia.
          apply Qmult_le_compat_r; [| now apply Qlt_le_weak].
          now apply Qlt_le_weak. }
        assert (V : round_b64 q <= 2 ^ 6).
        { rewrite S, <- (pow2_merge 53 (- (52 - 5)) 6) by lia.
          apply Qmult_le_compat_r; [| now apply Qlt_le_weak].
          rewrite (pow2_Z 53) by lia. rewrite <- Zle_Qle. exact NU. }
        change (2 ^ 6) with 64 in V. rewrite U46. lra.
      * (* 64 <= q < 128 *)
        assert (e = 6%Z) by lia. subst e. clear Ne E5 E6.
        change (52 - 6)%Z with 46%Z in *.
        assert (NU : (N < 100 * 2 ^ 46)%Z).
        { rewrite Zlt_Qlt, inject_Z_mult, <- (pow2_Z 46) by lia.
          change (inject_Z 100) with 100.
          assert (T : inject_Z N * 2 ^ (- (46)) * 2 ^ 46 < 100 * 2 ^ 46).
          { apply Qmult_lt_compat_r; [exact A |]. rewrite <- S. exact H. }
          assert (Y : inject_Z N * 2 ^ (- (46)) * 2 ^ 46 == inject_Z N).
          { rewrite <- Qmult_assoc, (Qmult_comm (2 ^ (- (46)))), K. ring. }
          lra. }
        assert (NU' : inject_Z N <= 100 * 2 ^ 46 - 1).
        { rewrite (pow2_Z 46) by lia. change 100 with (inject_Z 100).
          change 1 with (inject_Z 1). unfold Qminus.
          rewrite <- inject_Z_mult, <- inject_Z_opp, <- inject_Z_plus,
            <- Zle_Qle. lia. }
        rewrite S.
        assert (T : inject_Z N * 2 ^ (- (46))
                    <= (100 * 2 ^ 46 - 1) * 2 ^ (- (46))).
        { apply Qmult_le_compat_r; [exact NU' | now apply Qlt_le_weak]. }
        assert (Y : 2 ^ 46 * 2 ^ (- (46)) == 1) by exact K.
        set (a := 2 ^ 46) in *. set (b := 2 ^ (- (46))) in *.
        assert (Ub : b == 2 ^ (-46)) by reflexivity.
        rewrite <- Ub. clearbody a b. lra.
Qed.

(** The margin fraction as a float is at most [1 - 2^-53]. *)
Lemma fraction_b64_bound (v : Q) :
  0 <= v -> v <= 100 - 2 ^ (-46) ->
  round_b64 (v / 100) <= 1 - 2 ^ (-53).
Proof.
  intros V0 V1.
  assert (U46 : 2 ^ (-46) == 1 # 70368744177664) by reflexivity.
  assert (U53 : 2 ^ (-53) == 1 # 9007199254740992) by reflexivity.
  set (m := v / 100).
  assert (M0 : 0 <= m).
  { unfold m. apply Qle_shift_div_l; [reflexivity |]. now rewrite Qmult_0_l. }
  assert (M1 : m <= 1 - (1 # 7036874417766400)).
  { unfold m. apply Qle_shift_div_r; [reflexivity |]. rewrite U46 in V1.
    lra. }
  destruct (Qlt_le_dec m (1 # 2)) as [Small | Big].
  - assert (Mlt : m < 2 ^ 0) by (change (2 ^ 0) with 1; lra).
    destruct (round_b64_error m 0 M0 Mlt ltac:(lia)) as [_ E].
    change (2 ^ (0 - 54)) with (1 # 18014398509481984) in E.
    rewrite U53. lra.
  - assert (Hm : 0 < m) by lra.
    assert (Bm : binade m = (-1)%Z).
    { apply binade_unique.
      - change (2 ^ (-1)) with (1 # 2). exact Big.
      - change (2 ^ (-1 + 1)) with 1. lra. }
    rewrite (round_b64_pos m Hm), Bm.
    change (Z.min (52 - -1) 1074) with 53%Z.
    pose proof (pow2_pos 53) as A. pose proof (pow2_pos (- (53))) as B.
    pose proof (pow2_cancel 53) as K.
    assert (N : (Qrne (m * 2 ^ 53) <= 2 ^ 53 - 1)%Z).
    { apply Qrne_lt_half. rewrite <- (pow2_Z 53) by lia.
      assert (T : m * 2 ^ 53 <= (1 - (1 # 7036874417766400)) * 2 ^ 53).
      { apply Qmult_le_compat_r; [exact M1 | now apply Qlt_le_weak]. }
      change (2 ^ 53) with 9007199254740992 in *. lra. }
    assert (N' : inject_Z (Qrne (m * 2 ^ 53)) <= 2 ^ 53 - 1).
    { change (2 ^ 53 - 1) with (inject_Z (2 ^ 53 - 1)).
      rewrite <- Zle_Qle. exact N. }
    assert (T : inject_Z (Qrne (m * 2 ^ 53)) * 2 ^ (- (53))
                <= (2 ^ 53 - 1) * 2 ^ (- (53))).
    { apply Qmult_le_compat_r; [exact N' | now apply Qlt_le_weak]. }
    set (a := 2 ^ 53) in *. set (b := 2 ^ (- (53))) in *.
    assert (Ub : b == 2 ^ (-53)) by reflexivity.
    rewrite <- Ub. clearbody a b. lra.
Qed.

End Rounding.

(** ** The arithmetic of [subtract_percentage] *)

Section LimitArithmetic.

Local Open Scope Q_scope.

Lemma Qfloor_minus_Z (x : Q) (r : Z) :
  Qfloor (x - inject_Z r) = (Qfloor x - r)%Z.
Proof.
  apply Qfloor_unique.
  - unfold Z.sub. rewrite inject_Z_plus, inject_Z_opp. unfold Qminus.
    apply Qplus_le_l. apply Qfloor_le.
  - replace (Qfloor x - r + 1)%Z with ((Qfloor x + 1) + - r)%Z by lia.
    rewrite inject_Z_plus, inject_Z_opp. unfold Qminus.
    apply Qplus_lt_l. apply Qlt_floor.
Qed.

Lemma Qtrunc_nonneg (x : Q) : 0 <= x -> Qtrunc x = Qfloor x.
Proof.
  destruct x as [n d]. unfold Qle, Qtrunc, Qfloor. simpl. intros H.
  apply Z.quot_div_nonneg; lia.
Qed.

Lemma Qfloor_nonneg (x : Q) : 0 <= x -> (0 <= Qfloor x)%Z.
Proof.
  intros H. rewrite <- (Qfloor_Z 0). now apply Qfloor_resp_le.
Qed.

(** What the function computes on a rate read from the modem. *)
Lemma subtract_percentage_snmp (r : Z) (pct : pynum) :
  subtract_percentage (SnmpInt r) pct
  = SnmpInt (r - Qtrunc (margin_float r pct)).
Proof. reflexivity. Qed.

(** What it computes on plain Python integers: a float, not truncated. *)
Lemma subtract_percentage_plain (r p : Z) :
  subtract_percentage (PyInt r) (PyInt p)
  = PyFloat (round_b64 (inject_Z r) - margin_float r (PyInt p)).
Proof. reflexivity. Qed.

Lemma margin_float_nonneg (r : Z) (pct : pynum) :
  (0 <= r)%Z -> 0 <= to_Q pct -> 0 <= margin_float r pct.
Proof.
  intros Hr Hp. unfold margin_float. apply round_b64_nonneg.
  apply Qmult_le_0_compat; apply round_b64_nonneg.
  - change 0 with (inject_Z 0). rewrite <- Zle_Qle. exact Hr.
  - apply Qle_shift_div_l; [reflexivity |]. now rewrite Qmult_0_l.
Qed.

Lemma margin_trunc_floor (r : Z) (pct : pynum) :
  (0 <= r)%Z -> 0 <= to_Q pct ->
  Qtrunc (margin_float r pct) = Qfloor (margin_float r pct)
  /\ (0 <= Qfloor (margin_float r pct))%Z.
Proof.
  intros Hr Hp. pose proof (margin_float_nonneg r pct Hr Hp) as N.
  split; [now apply Qtrunc_nonneg | now apply Qfloor_nonneg].
Qed.

Lemma margin_float_zero (r : Z) (pct : pynum) :
  to_Q pct == 0 -> margin_float r pct = 0.
Proof.
  intros Hp. unfold margin_float.
  assert (C : round_b64 (to_Q pct / 100) = 0).
  { apply round_b64_zero. rewrite Hp. reflexivity. }
  rewrite C. apply round_b64_zero. ring.
Qed.

(** The binary64 number nearest to one tenth. *)
Lemma tenth_b64 :
  round_b64 (inject_Z 10 / 100) == 3602879701896397 # 36028797018963968.
Proof. vm_compute. reflexivity. Qed.

Lemma inject_Z_div_mod (r : Z) (k j : Z) :
  r = (10 * k + j)%Z -> inject_Z r == 10 * inject_Z k + inject_Z j.
Proof.
  intros ->. rewrite inject_Z_plus, inject_Z_mult. reflexivity.
Qed.

(** At 10 percent the truncated product is [r // 10], below [2^50]. *)
Lemma margin_at_ten_percent (r : Z) :
  (0 <= r < 2 ^ 50)%Z -> Qtrunc (margin_float r (PyInt 10)) = (r / 10)%Z.
Proof.
  intros [H0 H].
  destruct (margin_trunc_floor r (PyInt 10) H0) as [-> _]; [discriminate |].
  unfold margin_float. cbn [to_Q].
  assert (E : round_b64 (inject_Z r) * round_b64 (inject_Z 10 / 100)
              == inject_Z r * (3602879701896397 # 36028797018963968)).
  { rewrite tenth_b64, round_b64_int by lia. reflexivity. }
  rewrite E.
  pose proof (Z.div_mod r 10 ltac:(lia)) as D.
  pose proof (Z.mod_pos_bound r 10 ltac:(lia)) as B.
  pose proof (inject_Z_div_mod r (r / 10) (r mod 10) D) as I.
  assert (J0 : 0 <= inject_Z (r mod 10)).
  { change 0 with (inject_Z 0). rewrite <- Zle_Qle. lia. }
  assert (J9 : inject_Z (r mod 10) <= 9).
  { change 9 with (inject_Z 9). rewrite <- Zle_Qle. lia. }
  assert (K0 : 0 <= inject_Z (r / 10)).
  { change 0 with (inject_Z 0). rewrite <- Zle_Qle.
    apply Z.div_pos; lia. }
  assert (R : inject_Z r < 1125899906842624).
  { change 1125899906842624 with (inject_Z (2 ^ 50)).
    rewrite <- Zlt_Qlt. exact H. }
  assert (R0 : 0 <= inject_Z r).
  { change 0 with (inject_Z 0). rewrite <- Zle_Qle. exact H0. }
  apply round_b64_floor.
  - apply Z.div_pos; lia.
  - lra.
  - lra.
  - change (2 ^ 50) with 1125899906842624. lra.
Qed.

(** The float product is within [2^(E-53)] of the exact [r * pct / 100],
    for a rate below [2^E]. *)
Lemma margin_float_error (r : Z) (pct : pynum) (E : Z) :
  (0 <= r < 2 ^ E)%Z -> (0 <= E <= 52)%Z ->
  0 <= to_Q pct -> to_Q pct < 100 ->
  inject_Z r * (to_Q pct / 100) - 2 ^ (E - 53) <= margin_float r pct
  /\ margin_float r pct <= inject_Z r * (to_Q pct / 100) + 2 ^ (E - 53).
Proof.
  intros [H0 H] [E0 E52] Hlo Hhi.
  set (m := to_Q pct / 100).
  assert (M0 : 0 <= m).
  { unfold m. apply Qle_shift_div_l; [reflexivity |]. now rewrite Qmult_0_l. }
  assert (M1 : m < 1).
  { unfold m. apply Qlt_shift_div_r; [reflexivity |]. now rewrite Qmult_1_l. }
  unfold margin_float. fold m.
  assert (R53 : (0 <= r < 2 ^ 53)%Z).
  { split; [exact H0 |]. eapply Z.lt_le_trans; [exact H |].
    apply Z.pow_le_mono_r; lia. }
  assert (X : round_b64 (inject_Z r) * round_b64 m
              == inject_Z r * round_b64 m).
  { rewrite (round_b64_int r R53). reflexivity. }
  rewrite X.
  destruct (round_b64_error m 0 M0 M1 ltac:(lia)) as [C1 C2].
  pose proof (round_b64_nonneg m M0) as C0.
  set (c := round_b64 m) in *.
  assert (RQ0 : 0 <= inject_Z r).
  { change 0 with (inject_Z 0). rewrite <- Zle_Qle. exact H0. }
  assert (RQ1 : inject_Z r <= 2 ^ E - 1).
  { rewrite (pow2_Z E E0). change 1 with (inject_Z 1).
    unfold Qminus. rewrite <- inject_Z_opp, <- inject_Z_plus, <- Zle_Qle.
    lia. }
  pose proof (pow2_pos (0 - 54)) as D0.
  assert (AD : 2 ^ E * 2 ^ (0 - 54) == 2 ^ (E - 54)).
  { rewrite <- pow2_add. replace (E + (0 - 54))%Z with (E - 54)%Z by lia.
    reflexivity. }
  assert (EE : 2 ^ (E - 53) == 2 * 2 ^ (E - 54)).
  { replace (E - 53)%Z with (1 + (E - 54))%Z by lia. rewrite pow2_add.
    reflexivity. }
  assert (E4 : 2 ^ (E - 54) <= 1 # 4).
  { change (1 # 4) with (2 ^ (-2)). apply pow2_le. lia. }
  pose proof (pow2_pos (E - 54)) as EP.
  set (A := 2 ^ E) in *. set (d := 2 ^ (0 - 54)) in *.
  set (e := 2 ^ (E - 54)) in *. set (e2 := 2 ^ (E - 53)) in *.
  set (R := inject_Z r) in *.
  destruct (Qmult_between R (m - d) c (m + d) RQ0 C1 C2) as [P1 P2].
  assert (RD : R * d <= A * d - d).
  { assert (T : R * d <= (A - 1) * d).
    { apply Qmult_le_compat_r; [exact RQ1 | now apply Qlt_le_weak]. }
    lra. }
  assert (RM : R * m <= R * 1).
  { apply (Qmult_between R 0 m 1 RQ0 M0). now apply Qlt_le_weak. }
  assert (RM0 : 0 <= R * m) by now apply Qmult_le_0_compat.
  assert (X0 : 0 <= R * c) by now apply Qmult_le_0_compat.
  assert (XA : R * c < A) by lra.
  destruct (round_b64_error (R * c) E X0 XA ltac:(lia)) as [F1 F2].
  fold e in F1, F2.
  clearbody A d e e2 c R m.
  split; lra.
Qed.

(** Nine tenths, rounded up, in integers. *)
Lemma ceiling_nine_tenths (r : Z) :
  Qceiling (inject_Z r * (1 - to_Q (PyInt 10) / 100)) = (r - r / 10)%Z.
Proof.
  unfold Qceiling. cbn [to_Q].
  assert (E : - (inject_Z r * (1 - inject_Z 10 / 100))
              == inject_Z r / inject_Z 10 - inject_Z r) by (field).
  rewrite E, Qfloor_minus_Z, <- Zdiv_Qdiv. lia.
Qed.

(** For a percentage in [0, 100) the float of [pct / 100] is at most the
    largest float below 1. *)
Lemma percentage_fraction_bound (pct : pynum) :
  0 <= to_Q pct -> to_Q pct < 100 ->
  0 <= round_b64 (to_Q pct / 100)
  /\ round_b64 (to_Q pct / 100) <= 1 - 2 ^ (-53).
Proof.
  intros Hlo Hhi. split.
  - apply round_b64_nonneg. apply Qle_shift_div_l; [reflexivity |].
    now rewrite Qmult_0_l.
  - apply fraction_b64_bound; [exact Hlo |].
    assert (I : forall z, inject_Z z < 100 -> inject_Z z <= 100 - 2 ^ (-46)).
    { intros z Hz. change 100 with (inject_Z 100) in Hz.
      rewrite <- Zlt_Qlt in Hz.
      assert (T : inject_Z z <= 99).
      { change 99 with (inject_Z 99). rewrite <- Zle_Qle. lia. }
      change (2 ^ (-46)) with (1 # 70368744177664). lra. }
    destruct pct as [z | q | z]; cbn [to_Q] in *.
    + now apply I.
    + now apply float_below_100.
    + now apply I.
Qed.

(** The truncated margin stays below a positive rate, of whatever size. *)
Lemma margin_float_below_rate (r : Z) (pct : pynum) :
  (0 < r)%Z -> 0 <= to_Q pct -> to_Q pct < 100 ->
  (Qfloor (margin_float r pct) < r)%Z.
Proof.
  intros Hr Hlo Hhi.
  destruct (percentage_fraction_bound pct Hlo Hhi) as [C0 C1].
  pose proof (product_below_rate r _ ltac:(lia) C0 C1) as P.
  rewrite Zlt_Qlt. eapply Qle_lt_trans; [apply Qfloor_le | exact P].
Qed.

(** With an integer percentage below 100 and a rate below [2^32], the
    truncated product is the integer quotient [r * p // 100], or one less
    when the division is exact. *)
Lemma margin_floor_integer_percent (r p a b : Z) :
  (0 <= r < 2 ^ 32)%Z -> (0 <= p <= 99)%Z ->
  (r * p = 100 * a + b)%Z -> (0 <= b <= 99)%Z ->
  (Qfloor (margin_float r (PyInt p)) <= a)%Z
  /\ ((1 <= b)%Z -> (a <= Qfloor (margin_float r (PyInt p)))%Z)
  /\ (a - 1 <= Qfloor (margin_float r (PyInt p)))%Z.
Proof.
  intros Hr Hp D Hb.
  assert (P0 : 0 <= to_Q (PyInt p)).
  { cbn [to_Q]. change 0 with (inject_Z 0). rewrite <- Zle_Qle. lia. }
  assert (P1 : to_Q (PyInt p) < 100).
  { cbn [to_Q]. change 100 with (inject_Z 100). rewrite <- Zlt_Qlt. lia. }
  destruct (margin_float_error r (PyInt p) 32 Hr ltac:(lia) P0 P1) as [E1 E2].
  change (2 ^ (32 - 53)) with (1 # 2097152) in E1, E2.
  cbn [to_Q] in E1, E2.
  assert (X : inject_Z r * (inject_Z p / 100)
              == inject_Z a + inject_Z b / 100).
  { assert (T : inject_Z r * inject_Z p == 100 * inject_Z a + inject_Z b).
    { rewrite <- inject_Z_mult, D, inject_Z_plus, inject_Z_mult.
      reflexivity. }
    unfold Qdiv. rewrite Qmult_assoc, T. field. }
  rewrite X in E1, E2.
  assert (B0 : 0 <= inject_Z b).
  { change 0 with (inject_Z 0). rewrite <- Zle_Qle. lia. }
  assert (B9 : inject_Z b <= 99).
  { change 99 with (inject_Z 99). rewrite <- Zle_Qle. lia. }
  pose proof (Qfloor_le (margin_float r (PyInt p))) as F1.
  pose proof (Qlt_floor (margin_float r (PyInt p))) as F2.
  rewrite inject_Z_plus in F2. change (inject_Z 1) with 1 in F2.
  set (M := margin_float r (PyInt p)) in *.
  set (f := Qfloor M) in *.
  assert (T0 : 0 <= inject_Z b / 100).
  { apply Qle_shift_div_l; [reflexivity | lra]. }
  assert (T9 : inject_Z b / 100 <= 99 # 100).
  { apply Qle_shift_div_r; [reflexivity | lra]. }
  assert (T1 : (1 <= b)%Z -> 1 # 100 <= inject_Z b / 100).
  { intros B1. apply Qle_shift_div_l; [reflexivity |].
    assert (B1' : 1 <= inject_Z b).
    { change 1 with (inject_Z 1). rewrite <- Zle_Qle. exact B1. }
    lra. }
  set (t := inject_Z b / 100) in *.
  clearbody f M t. clear X P0 P1.
  assert (Q1 : forall x y : Z, inject_Z x < inject_Z y + 1 -> (x <= y)%Z).
  { intros x y H. change 1 with (inject_Z 1) in H.
    rewrite <- inject_Z_plus, <- Zlt_Qlt in H. lia. }
  split; [| split].
  - apply Q1. lra.
  - intros B1. specialize (T1 B1). apply Q1. lra.
  - assert (T : (a - 1 <= f + 0)%Z).
    { apply Z.lt_succ_r. rewrite Zlt_Qlt.
      unfold Z.succ, Z.sub. rewrite !inject_Z_plus, inject_Z_opp.
      change (inject_Z 1) with 1. change (inject_Z 0) with 0.
      lra. }
    lia.
Qed.

(** At 100 percent the whole rate is subtracted. *)
Lemma margin_float_all (r : Z) :
  (0 <= r < 2 ^ 53)%Z -> margin_float r (PyInt 100) == inject_Z r.
Proof.
  intros Hr. unfold margin_float. cbn [to_Q].
  assert (E : round_b64 (inject_Z 100 / 100) == 1) by (vm_compute; reflexivity).
  rewrite E, Qmult_1_r, (round_b64_int r Hr). apply round_b64_int. exact Hr.
Qed.

End LimitArithmetic.

(** On the documented rates, on small rates, on the largest Gauge32 and
    beyond [2^53], the model and the machine floats give the same truncated
    margin and the same thousandth. *)
Example binary64_agrees_on_samples :
  forallb
    (fun r =>
       forallb
         (fun p => Binary64.margin_amount r p
                   =? Qtrunc (margin_float r (PyInt p)))
         [0; 10; 29; 99]
       && Qeq_bool (Binary64.thousandth r) (round_b64 (inject_Z r / 1000)))
    [50676736; 10820608; 1; 5; 7; 9; 10; 11; 19; 20; 99; 100; 45609065;
     1000000000; 4294967295; 9007199254740993; 9007199254740994;
     4611686018427387905]
  = true.
Proof. vm_compute. reflexivity. Qed.

Section LimitClaims.

Local Open Scope Q_scope.

(** Where the rounding of the floats shows: 29 percent of 100 is the float
    28.999999999999996, truncated to 28; the product of 7 and the float of
    14.285714285714285 / 100 is 1.0, so one is subtracted although the exact
    product is below 1; above [2^53] a rate is itself rounded when it becomes
    a float, so that the limit at 99 percent drops from one rate to the next
    and the limit at 10 percent is one less than [r - r // 10]; on plain
    Python integers above [2^53] the result at margin 0 is the rounded
    rate. *)
Example rounding_samples :
  subtract_percentage (SnmpInt 100) (PyInt 29) = SnmpInt 72
  /\ subtract_percentage (SnmpInt 7)
       (PyFloat (14285714285714285 # 1000000000000000)) = SnmpInt 6
  /\ subtract_percentage (SnmpInt 9007199254740993) (PyInt 99)
     = SnmpInt 90071992547411
  /\ subtract_percentage (SnmpInt 9007199254740994) (PyInt 99)
     = SnmpInt 90071992547410
  /\ subtract_percentage (SnmpInt 9007199254740999) (PyInt 10)
     = SnmpInt 8106479329266899
  /\ (9007199254740999 - 9007199254740999 / 10 = 8106479329266900)%Z
  /\ to_Q (subtract_percentage (PyInt 9007199254740993) (PyInt 0))
     == inject_Z 9007199254740992.
Proof. repeat split; vm_compute; reflexivity. Qed.

(** C2, as stated, fails: with the rate 50,676,736 of the module docstring
    and the 10 percent margin the code yields 45,609,063, one more than
    [floor(r * (1 - m)) = 45,609,062].  On plain Python numbers the same
    function yields the unrounded 45,609,062.4, again not the floor. *)
Lemma C2_floor_counterexample :
  subtract_percentage (SnmpInt 50676736) (PyInt 10)
    <> SnmpInt (spec_computeLimit 50676736 (10 # 100))
  /\ ~ to_Q (subtract_percentage (PyInt 50676736) (PyInt 10))
       == inject_Z (spec_computeLimit 50676736 (10 # 100)).
Proof.
  split.
  - vm_compute. discriminate.
  - vm_compute. discriminate.
Qed.

(** C2, amended: for every rate [0 < r < 2^50] read from the modem and every
    margin percentage in [0, 100), a Python int or float (margin fraction
    [m = pct / 100] in [0, 1)), the limit computation returns the integer
    [r - floor(p)], where [p] is the float product [r * m] of line 86; that
    integer is within one of the ceiling of the exact [r * (1 - m)], and at
    the 10 percent that [main] passes it is exactly that ceiling,
    [r - r // 10]. *)
Theorem C2_limit_is_rate_minus_truncated_margin (r : Z) (pct : pynum) :
  (0 < r)%Z -> (r < 2 ^ 50)%Z ->
  is_plain pct = true -> 0 <= to_Q pct -> to_Q pct < 100 ->
  exists l : Z,
    subtract_percentage (SnmpInt r) pct = SnmpInt l
    /\ l = (r - Qfloor (margin_float r pct))%Z
    /\ (Qceiling (inject_Z r * (1 - to_Q pct / 100)) - 1 <= l)%Z
    /\ (l <= Qceiling (inject_Z r * (1 - to_Q pct / 100)) + 1)%Z
    /\ (pct = PyInt 10 ->
        l = (r - r / 10)%Z
        /\ l = Qceiling (inject_Z r * (1 - to_Q pct / 100))).
Proof.
  intros Hr H50 _ Hlo Hhi. rewrite subtract_percentage_snmp.
  destruct (margin_trunc_floor r pct ltac:(lia) Hlo) as [T _].
  eexists. split; [reflexivity |]. split; [now rewrite T |].
  destruct (margin_float_error r pct 50 ltac:(lia) ltac:(lia) Hlo Hhi)
    as [B1 B2].
  change (2 ^ (50 - 53)) with (1 # 8) in B1, B2.
  pose proof (Qfloor_le (margin_float r pct)) as F1.
  pose proof (Qlt_floor (margin_float r pct)) as F2.
  rewrite inject_Z_plus in F2. change (inject_Z 1) with 1 in F2.
  pose proof (Qle_ceiling (inject_Z r * (1 - to_Q pct / 100))) as C1.
  pose proof (Qceiling_lt (inject_Z r * (1 - to_Q pct / 100))) as C2.
  unfold Z.sub in C2. rewrite inject_Z_plus, inject_Z_opp in C2.
  change (inject_Z 1) with 1 in C2.
  rewrite T.
  set (P := margin_float r pct) in *.
  set (C := Qceiling (inject_Z r * (1 - to_Q pct / 100))) in *.
  assert (X : inject_Z r * (1 - to_Q pct / 100)
              == inject_Z r - inject_Z r * (to_Q pct / 100)) by ring.
  rewrite X in C1, C2.
  set (rm := inject_Z r * (to_Q pct / 100)) in *.
  split; [| split].
  - assert (G : inject_Z (C - 2) < inject_Z (r - Qfloor P)).
    { unfold Z.sub. rewrite !inject_Z_plus, !inject_Z_opp.
      change (inject_Z 2) with 2. lra. }
    rewrite <- Zlt_Qlt in G. lia.
  - assert (G : inject_Z (r - Qfloor P) < inject_Z (C + 2)).
    { unfold Z.sub. rewrite !inject_Z_plus, !inject_Z_opp.
      change (inject_Z 2) with 2. lra. }
    rewrite <- Zlt_Qlt in G. lia.
  - intros ->. subst P C.
    rewrite <- T, (margin_at_ten_percent r ltac:(lia)).
    split; [reflexivity |]. symmetry. apply ceiling_nine_tenths.
Qed.

Lemma C2_limit_witness :
  exists l : Z,
    subtract_percentage (SnmpInt 50676736) (PyInt 10) = SnmpInt l
    /\ l = (50676736 - Qfloor (margin_float 50676736 (PyInt 10)))%Z
    /\ (Qceiling (inject_Z 50676736 * (1 - to_Q (PyInt 10) / 100)) - 1
        <= l)%Z
    /\ (l <= Qceiling (inject_Z 50676736 * (1 - to_Q (PyInt 10) / 100))
             + 1)%Z
    /\ (PyInt 10 = PyInt 10 ->
        l = (50676736 - 50676736 / 10)%Z
        /\ l = Qceiling (inject_Z 50676736 * (1 - to_Q (PyInt 10) / 100))).
Proof.
  apply (C2_limit_is_rate_minus_truncated_margin 50676736 (PyInt 10)).
  - reflexivity.
  - reflexivity.
  - reflexivity.
  - discriminate.
  - reflexivity.
Defined.

(** C5, as stated, fails: no single policy among floor and round-half-up
    gives the limits the code computes for the two documented rates (both
    policies give 45,609,062 and 9,738,547; the code gives one more). *)
Lemma C5_policy_counterexample :
  ~ exists policy : Q -> Z,
      (policy = Qfloor \/ policy = spec_round_half_up)
      /\ subtract_percentage (SnmpInt 50676736) (PyInt 10)
         = SnmpInt (policy (inject_Z 50676736 * (1 - (10 # 100))))
      /\ subtract_percentage (SnmpInt 10820608) (PyInt 10)
         = SnmpInt (policy (inject_Z 10820608 * (1 - (10 # 100)))).
Proof.
  intros [policy [[-> | ->] [Hd _]]]; vm_compute in Hd; discriminate.
Qed.

(** C5, amended: at 10 percent the desired download limit for 50,676,736 bps
    is 45,609,063 and the desired upload limit for 10,820,608 bps is
    9,738,548; one policy gives both, the ceiling of [rate * 0.9] (the rate
    minus the truncated margin amount), where floor and round-half-up would
    give 45,609,062 and 9,738,547. *)
Theorem C5_documented_limits :
  subtract_percentage (SnmpInt 50676736) (PyInt 10) = SnmpInt 45609063
  /\ subtract_percentage (SnmpInt 10820608) (PyInt 10) = SnmpInt 9738548
  /\ Qceiling (inject_Z 50676736 * (1 - (10 # 100))) = 45609063%Z
  /\ Qceiling (inject_Z 10820608 * (1 - (10 # 100))) = 9738548%Z
  /\ spec_computeLimit 50676736 (10 # 100) = 45609062%Z
  /\ spec_round_half_up (inject_Z 50676736 * (1 - (10 # 100))) = 45609062%Z
  /\ spec_computeLimit 10820608 (10 # 100) = 9738547%Z
  /\ spec_round_half_up (inject_Z 10820608 * (1 - (10 # 100))) = 9738547%Z.
Proof. repeat split; vm_compute; reflexivity. Qed.

(** C6, as stated, fails: at margin 0 the limit equals the rate, and with a
    positive margin it still equals the rate when [r * m < 1] (rate 9 at
    10 percent). *)
Lemma C6_strict_counterexample :
  ~ to_Q (subtract_percentage (SnmpInt 50676736) (PyInt 0)) < inject_Z 50676736
  /\ ~ to_Q (subtract_percentage (SnmpInt 9) (PyInt 10)) < inject_Z 9.
Proof. split; vm_compute; discriminate. Qed.

(** C6, amended: for every rate [0 < r < 2^64] read from the modem and
    margin fraction [m] in [0, 1), the percentage being a Python int or
    float, the computed limit is an integer at most [r]; for a rate below
    [2^32] it is strictly less than [r] when the exact [r * m] is at least
    [1 + 2^-21], and it equals [r] when [r * m] is below [1 - 2^-21].  In
    between, the rounding of the float product decides. *)
Theorem C6_limit_le_rate (r : Z) (pct : pynum) :
  (0 < r)%Z -> (r < 2 ^ 64)%Z ->
  is_plain pct = true -> 0 <= to_Q pct -> to_Q pct < 100 ->
  exists l : Z,
    subtract_percentage (SnmpInt r) pct = SnmpInt l
    /\ (l <= r)%Z
    /\ ((r < 2 ^ 32)%Z ->
        1 + (1 # 2097152) <= inject_Z r * (to_Q pct / 100) -> (l < r)%Z)
    /\ ((r < 2 ^ 32)%Z ->
        inject_Z r * (to_Q pct / 100) < 1 - (1 # 2097152) -> l = r).
Proof.
  intros Hr _ _ Hlo Hhi. rewrite subtract_percentage_snmp.
  destruct (margin_trunc_floor r pct ltac:(lia) Hlo) as [T T0].
  rewrite T. eexists. split; [reflexivity |]. split; [lia |].
  pose proof (Qfloor_le (margin_float r pct)) as F1.
  pose proof (Qlt_floor (margin_float r pct)) as F2.
  split; intros H32 Hm;
    destruct (margin_float_error r pct 32 ltac:(lia) ltac:(lia) Hlo Hhi)
      as [B1 B2];
    change (2 ^ (32 - 53)) with (1 # 2097152) in B1, B2.
  - assert (G : (1 <= Qfloor (margin_float r pct))%Z).
    { rewrite <- (Qfloor_Z 1). apply Qfloor_resp_le.
      change (inject_Z 1) with 1. lra. }
    lia.
  - assert (G : (Qfloor (margin_float r pct) < 1)%Z).
    { rewrite Zlt_Qlt. change (inject_Z 1) with 1. lra. }
    lia.
Qed.

Lemma C6_limit_witness :
  exists l : Z,
    subtract_percentage (SnmpInt 10820608) (PyInt 10) = SnmpInt l
    /\ (l <= 10820608)%Z
    /\ ((10820608 < 2 ^ 32)%Z ->
        1 + (1 # 2097152) <= inject_Z 10820608 * (to_Q (PyInt 10) / 100) ->
        (l < 10820608)%Z)
    /\ ((10820608 < 2 ^ 32)%Z ->
        inject_Z 10820608 * (to_Q (PyInt 10) / 100) < 1 - (1 # 2097152) ->
        l = 10820608%Z).
Proof.
  apply (C6_limit_le_rate 10820608 (PyInt 10)).
  - reflexivity.
  - reflexivity.
  - reflexivity.
  - discriminate.
  - reflexivity.
Defined.

(** C7: for every rate [0 < r < 2^64] read from the modem, the limit at
    margin 0 is [r] itself, whether the margin is the integer 0 or the
    float 0.0; on plain Python integers the result is a float, equal to [r]
    for every [r] below [2^53]. *)
Theorem C7_zero_margin_identity (r : Z) :
  (0 < r)%Z -> (r < 2 ^ 64)%Z ->
  subtract_percentage (SnmpInt r) (PyInt 0) = SnmpInt r
  /\ subtract_percentage (SnmpInt r) (PyFloat 0) = SnmpInt r
  /\ ((r < 2 ^ 53)%Z ->
      to_Q (subtract_percentage (PyInt r) (PyInt 0)) == inject_Z r).
Proof.
  intros Hr _.
  assert (E : forall pct, to_Q pct == 0 ->
            subtract_percentage (SnmpInt r) pct = SnmpInt r).
  { intros pct Hp. rewrite subtract_percentage_snmp.
    rewrite (margin_float_zero r pct Hp). f_equal.
    change (Qtrunc 0) with 0%Z. lia. }
  split; [apply E; reflexivity |].
  split; [apply E; reflexivity |].
  intros H53.
  rewrite subtract_percentage_plain.
  rewrite (margin_float_zero r (PyInt 0)) by reflexivity.
  cbn [to_Q].
  assert (Z2 : round_b64 (inject_Z r) - 0 == inject_Z r).
  { rewrite (round_b64_int r) by lia. ring. }
  rewrite Z2. apply round_b64_int. lia.
Qed.

Lemma C7_zero_margin_witness :
  subtract_percentage (SnmpInt 50676736) (PyInt 0) = SnmpInt 50676736
  /\ subtract_percentage (SnmpInt 50676736) (PyFloat 0) = SnmpInt 50676736
  /\ ((50676736 < 2 ^ 53)%Z ->
      to_Q (subtract_percentage (PyInt 50676736) (PyInt 0))
      == inject_Z 50676736).
Proof. apply (C7_zero_margin_identity 50676736); reflexivity. Defined.

End LimitClaims.

(** ** Reasoning about runs *)

Section Runs.

Context {A B : Type}.

Lemma bind_raise (m : M A) (k : A -> M B) (e : exn) :
  outcome m = Raise e -> bind m k = (trace m, Raise e).
Proof. destruct m as [t [a | e']]; simpl; congruence. Qed.

Lemma bind_ok (m : M A) (k : A -> M B) (a : A) :
  outcome m = Ok a ->
  bind m k = ((trace m ++ trace (k a))%list, outcome (k a)).
Proof.
  destruct m as [t [a' | e']]; simpl; intros E; inversion E; subst.
  now destruct (k a).
Qed.

Lemma all_bind (P : event -> bool) (m : M A) (k : A -> M B) :
  all_events P m ->
  (forall a, outcome m = Ok a -> all_events P (k a)) ->
  all_events P (bind m k).
Proof.
  unfold all_events. destruct m as [t [a | e]]; simpl; intros Hm Hk; auto.
  specialize (Hk a eq_refl). destruct (k a) as [t' r]; simpl in *.
  apply Forall_app; auto.
Qed.

Lemma all_try (P : event -> bool) (m : M A) (h : exn -> M A) :
  all_events P m -> (forall e, all_events P (h e)) ->
  all_events P (try_except m h).
Proof.
  unfold all_events. destruct m as [t [a | e]]; simpl; intros Hm Hh; auto.
  destruct (is_Exception e); simpl; auto.
  specialize (Hh e). destruct (h e) as [t' r]; simpl in *.
  apply Forall_app; auto.
Qed.

Lemma all_ret (P : event -> bool) (a : A) : all_events P (ret a).
Proof. constructor. Qed.

Lemma all_raise (P : event -> bool) (e : exn) :
  all_events P (@raise A e).
Proof. constructor. Qed.

End Runs.

Lemma all_emit (P : event -> bool) (ev : event) :
  P ev = true -> all_events P (emit ev).
Proof. intros H. repeat constructor. exact H. Qed.

(** Walks a run built from the combinators, splitting on every test. *)
Ltac walk :=
  repeat first
    [ apply all_ret
    | apply all_raise
    | apply all_emit; reflexivity
    | apply all_bind; [ | intros ? ? ]
    | apply all_try; [ | intros ? ]
    | match goal with
      | |- all_events _ (match ?x with _ => _ end) => destruct x
      end ].

Ltac open_run :=
  unfold main, get_api, read_rates, report_applied,
    set_queue_tree_max_limit, get_queue_tree_attributes, queue_tree_get,
    snmp_get, py_int, none_or_le0, as_num, exit.

(** No run of [main] ever sends an update request to the router. *)
Lemma main_never_sets_queue (cfg : config) (w : world) :
  all_events (fun ev => negb (is_set ev)) (main cfg w).
Proof. open_run. walk. Qed.

Lemma count_none_of_all {A} (P : event -> bool) (m : M A) :
  all_events (fun ev => negb (P ev)) m -> count P (trace m) = 0%nat.
Proof.
  unfold all_events, count. induction 1 as [| ev t Hev _ IH]; simpl.
  - reflexivity.
  - destruct (P ev); [discriminate | exact IH].
Qed.

Lemma py_le0_snmp (z : Z) : py_le0 (SnmpInt z) = (z <=? 0).
Proof. unfold py_le0, Qle_bool. simpl. now rewrite Z.mul_1_r. Qed.

Lemma py_int_ok (v d : pyval) :
  outcome (py_int v) = Ok d -> exists z, d = PNum (PyInt z).
Proof.
  destruct v as [| s | n]; simpl.
  - discriminate.
  - destruct (int_of_string s); simpl; [| discriminate].
    intros E; inversion E; eauto.
  - intros E; inversion E; eauto.
Qed.

Lemma py_int_trace (v : pyval) : trace (py_int v) = [].
Proof.
  destruct v as [| s | n]; simpl; try reflexivity.
  destruct (int_of_string s); reflexivity.
Qed.

Lemma py_int_silent (P : event -> bool) (v : pyval) :
  all_events P (py_int v).
Proof.
  destruct v as [| s | n]; simpl; try constructor.
  destruct (int_of_string s); constructor.
Qed.

Lemma filter_absent (a : api) (queue_name : string) :
  (forall q, In q a -> q_name q <> queue_name) ->
  filter (fun q => String.eqb (q_name q) queue_name) a = [].
Proof.
  induction a as [| q a IH]; simpl; intros H; [reflexivity |].
  destruct (String.eqb_spec (q_name q) queue_name) as [E | _].
  - exfalso. apply (H q); auto.
  - apply IH. intros q' Hq'. apply H. auto.
Qed.

(** ** The reads *)

(** A failed or rejected read ends [read_rates] with [exit(1)]. *)
Lemma read_rates_bad (cfg : config) (w : world) :
  reply_bad (snmp_agent w (SNMP_OID_DOWNSTREAM cfg)) = true
  \/ reply_bad (snmp_agent w (SNMP_OID_UPSTREAM cfg)) = true ->
  outcome (read_rates cfg w) = Raise (SystemExit 1).
Proof.
  unfold read_rates, snmp_get.
  destruct (snmp_agent w (SNMP_OID_DOWNSTREAM cfg)) as [m1 | m1 | z1];
    destruct (snmp_agent w (SNMP_OID_UPSTREAM cfg)) as [m2 | m2 | z2];
    simpl; try reflexivity;
    rewrite ?py_le0_snmp;
    try (destruct (z1 <=? 0) eqn:E1; simpl; try reflexivity);
    rewrite ?py_le0_snmp;
    try (destruct (z2 <=? 0) eqn:E2; simpl; try reflexivity);
    intros [H | H]; discriminate.
Qed.

Lemma read_rates_no_queue_request (cfg : config) (w : world) :
  all_events (fun ev => negb (is_queue_request ev)) (read_rates cfg w).
Proof. open_run. walk. Qed.

Section PipelineClaims.

Local Open Scope string_scope.

(** C1: with both queues present and non-zero desired limits, the run
    announces both updates (line 130) and returns normally, yet sends no
    update request at all to the router: the request of line 131 is
    commented out.  The same holds for every configuration and world. *)
Theorem C1_no_update_request_is_sent :
  outcome (main cfg0 world0) = Ok tt
  /\ count (is_log_at 130) (trace (main cfg0 world0)) = 2%nat
  /\ count is_set (trace (main cfg0 world0)) = 0%nat
  /\ forall cfg w, count is_set (trace (main cfg w)) = 0%nat.
Proof.
  split; [vm_compute; reflexivity |].
  split; [vm_compute; reflexivity |].
  split; [vm_compute; reflexivity |].
  intros cfg w. apply count_none_of_all, main_never_sets_queue.
Qed.

(** C3: if either rate read fails or delivers a missing, zero or negative
    value, the process ends with a non-zero exit status and the run sends
    the router no queue request of any kind, in particular none that
    updates a queue. *)
Theorem C3_bad_read_exits_without_touching_queues
    (cfg : config) (w : world) :
  reply_bad (snmp_agent w (SNMP_OID_DOWNSTREAM cfg)) = true
  \/ reply_bad (snmp_agent w (SNMP_OID_UPSTREAM cfg)) = true ->
  exit_status (main cfg w) <> 0
  /\ all_events (fun ev => negb (is_queue_request ev)) (main cfg w)
  /\ count is_set (trace (main cfg w)) = 0%nat.
Proof.
  intros Hbad.
  split; [| split]; [| | apply count_none_of_all, main_never_sets_queue].
  - unfold exit_status, main, get_api.
    destruct (get_api_error w) as [msg |]; simpl; [discriminate |].
    rewrite (bind_raise _ _ _ (read_rates_bad cfg w Hbad)).
    simpl. discriminate.
  - unfold main, get_api.
    destruct (get_api_error w) as [msg |]; simpl.
    + repeat constructor.
    + rewrite (bind_raise _ _ _ (read_rates_bad cfg w Hbad)).
      unfold all_events. simpl. constructor; [reflexivity |].
      apply read_rates_no_queue_request.
Qed.

Lemma C3_bad_read_witness :
  exit_status (main cfg0 world_read_timeout) <> 0
  /\ all_events (fun ev => negb (is_queue_request ev))
       (main cfg0 world_read_timeout)
  /\ count is_set (trace (main cfg0 world_read_timeout)) = 0%nat.
Proof.
  apply (C3_bad_read_exits_without_touching_queues cfg0 world_read_timeout).
  left. reflexivity.
Defined.

(** C4: on a router that has the upload queue but not the download queue,
    the download step raises [UnboundLocalError] out of [main]; the upload
    step is never attempted (no lookup for it after line 206, no
    announcement), and nothing is reported or released. *)
Theorem C4_missing_download_queue_aborts_the_run :
  main cfg0 world_no_download
  = ([ EGetApi;
       ESnmpGet "192.0.2.1" "public" "oid.down";
       ESnmpGet "192.0.2.1" "public" "oid.up";
       ELog 189 INFO
         "DSL Downstream/Upstream actual rates: %s/%s bps (%s/%s kbps)"
         [ PNum (SnmpInt 50676736); PNum (SnmpInt 10820608);
           PNum (PyFloat (5067674 # 100)); PNum (PyFloat (1082061 # 100)) ];
       ELog 200 DEBUG "Down/Up Queue Proposed Max Limits: %s/%s"
         [ PNum (SnmpInt 45609063); PNum (SnmpInt 9738548) ];
       EQueueGet "download"; EQueueGet "upload";
       ELog 216 WARNING "Queue Tree entry not found." [];
       EQueueGet "download" ],
     Raise (UnboundLocalError "queue_id"))
  /\ count (is_log_at 130) (trace (main cfg0 world_no_download)) = 0%nat
  /\ count (is_log_at 134) (trace (main cfg0 world_no_download)) = 0%nat.
Proof. repeat split; vm_compute; reflexivity. Qed.

(** C8: with the session established, a downstream read that times out
    ends the process through [exit(1)] at line 182; [api_pool.disconnect()]
    (line 239) is never reached, so the session is not released. *)
Theorem C8_early_exit_leaves_session_open :
  main cfg0 world_read_timeout
  = ([ EGetApi;
       ESnmpGet "192.0.2.1" "public" "oid.down";
       EPrint "SNMP Error: No SNMP response received before timeout";
       ESnmpGet "192.0.2.1" "public" "oid.up";
       ELog 181 ERROR "Error: Downstream attainable rate not found" [] ],
     Raise (SystemExit 1))
  /\ count is_disconnect (trace (main cfg0 world_read_timeout)) = 0%nat
  /\ count is_disconnect (trace (main cfg0 world_no_download)) = 0%nat
  /\ count is_disconnect (trace (main cfg0 world0)) = 1%nat.
Proof. repeat split; vm_compute; reflexivity. Qed.

(** The model reproduces the example log of the module docstring. *)
Example docstring_log :
  filter is_log (trace (main cfg0 world0))
  = [ ELog 189 INFO
        "DSL Downstream/Upstream actual rates: %s/%s bps (%s/%s kbps)"
        [ PNum (SnmpInt 50676736); PNum (SnmpInt 10820608);
          PNum (PyFloat (5067674 # 100)); PNum (PyFloat (1082061 # 100)) ];
      ELog 200 DEBUG "Down/Up Queue Proposed Max Limits: %s/%s"
        [ PNum (SnmpInt 45609063); PNum (SnmpInt 9738548) ];
      ELog 209 DEBUG "Download/Upload Queue IDs: %s/%s"
        [ PStr "*1"; PStr "*2" ];
      ELog 211 INFO "Download/Upload Queue CURRENT Max Limit: %s/%s"
        [ PStr "45609063"; PStr "9738548" ];
      ELog 130 INFO
        ("Setting Queue " ++ dquote ++ "%s" ++ dquote ++ " Max Limit to %s")
        [ PStr "download"; PNum (SnmpInt 45609063) ];
      ELog 130 INFO
        ("Setting Queue " ++ dquote ++ "%s" ++ dquote ++ " Max Limit to %s")
        [ PStr "upload"; PNum (SnmpInt 9738548) ];
      ELog 230 INFO
        "Download/Uploads Queue APPLIED Max Limits: %s/%s (%s/%s kbps)"
        [ PNum (PyInt 45609063); PNum (PyInt 9738548);
          PNum (PyFloat (4560906 # 100)); PNum (PyFloat (973855 # 100)) ] ].
Proof. vm_compute. reflexivity. Qed.

End PipelineClaims.

(** ** Release of the session, in general *)

Lemma released_bind {A B} (m : M A) (k : A -> M B) :
  all_events (fun ev => negb (is_disconnect ev)) m ->
  (forall a, outcome m = Ok a -> released_only_if_ok (k a)) ->
  released_only_if_ok (bind m k).
Proof.
  unfold released_only_if_ok, all_events.
  destruct m as [t [a | e]]; simpl; intros Hm Hk.
  - specialize (Hk a eq_refl). destruct (k a) as [t' r]; simpl in *.
    intros Hin. apply in_app_or in Hin. destruct Hin as [Hin | Hin]; auto.
    rewrite Forall_forall in Hm. specialize (Hm _ Hin). discriminate.
  - intros Hin. rewrite Forall_forall in Hm.
    specialize (Hm _ Hin). discriminate.
Qed.

Lemma released_emit (ev : event) : released_only_if_ok (emit ev).
Proof. intros _. exists tt. reflexivity. Qed.

Lemma disconnect_only_on_success (cfg : config) (w : world) :
  In EDisconnect (trace (main cfg w)) -> outcome (main cfg w) = Ok tt.
Proof.
  intros Hin.
  assert (H : released_only_if_ok (main cfg w)).
  { unfold main.
    repeat first
      [ apply released_emit
      | apply released_bind; [ solve [ open_run; walk ] | intros ? ? ]
      | match goal with
        | |- released_only_if_ok (match ?x with _ => _ end) => destruct x
        end ]. }
  destruct (H Hin) as [[] E]. exact E.
Qed.

(** ** The missing queue and the final report *)

Section MissingQueue.

Local Open Scope string_scope.

(** C9: when the lookup by name returns no entry, [queue_id] is never
    bound and the guard of line 129 raises [UnboundLocalError]: the run of
    [set_queue_tree_max_limit] consists of the lookup alone, the error
    branch of line 134 is not taken, and whatever the caller would do next
    is not executed. *)
Theorem C9_missing_queue_raises_unbound_local
    (a : api) (queue_name : string) (max_limit : pyval) :
  (forall q, In q a -> q_name q <> queue_name) ->
  set_queue_tree_max_limit a queue_name max_limit
    = ([EQueueGet queue_name], Raise (UnboundLocalError "queue_id"))
  /\ count (is_log_at 134)
       (trace (set_queue_tree_max_limit a queue_name max_limit)) = 0%nat
  /\ forall (B : Type) (k : unit -> M B),
       bind (set_queue_tree_max_limit a queue_name max_limit) k
       = ([EQueueGet queue_name], Raise (UnboundLocalError "queue_id")).
Proof.
  intros Habsent.
  assert (E : set_queue_tree_max_limit a queue_name max_limit
              = ([EQueueGet queue_name],
                 Raise (UnboundLocalError "queue_id"))).
  { unfold set_queue_tree_max_limit, queue_tree_get. simpl.
    rewrite (filter_absent a queue_name Habsent). reflexivity. }
  rewrite E. split; [reflexivity |]. split; [reflexivity |].
  intros B k. reflexivity.
Qed.

Lemma C9_missing_queue_witness :
  set_queue_tree_max_limit (queue_tree world_no_download) "download"
      (PNum (SnmpInt 45609063))
    = ([EQueueGet "download"], Raise (UnboundLocalError "queue_id"))
  /\ count (is_log_at 134)
       (trace (set_queue_tree_max_limit (queue_tree world_no_download)
                 "download" (PNum (SnmpInt 45609063)))) = 0%nat
  /\ forall (B : Type) (k : unit -> M B),
       bind (set_queue_tree_max_limit (queue_tree world_no_download)
               "download" (PNum (SnmpInt 45609063))) k
       = ([EQueueGet "download"], Raise (UnboundLocalError "queue_id")).
Proof.
  apply (C9_missing_queue_raises_unbound_local
           (queue_tree world_no_download) "download"
           (PNum (SnmpInt 45609063))).
  simpl. intros q [<- | []]. simpl. discriminate.
Defined.

(** The error branch of line 134 is still reachable, but only through an
    entry without a usable id or a zero limit, not through a missing
    queue. *)
Example error_branch_needs_an_entry :
  set_queue_tree_max_limit [mkQueue "download" None None] "download"
      (PNum (SnmpInt 45609063))
  = ([ EQueueGet "download";
       ELog 134 ERROR "Queue ID or Max Limit is not set" [] ], Ok tt).
Proof. reflexivity. Qed.

End MissingQueue.

Section FinalReport.

(** [int] never hands back [None]. *)
Lemma report_applied_never_warns (a : api) (cfg : config) :
  all_events (fun ev => negb (is_log_at 237 ev)) (report_applied a cfg).
Proof.
  unfold report_applied, get_queue_tree_attributes, queue_tree_get, as_num.
  repeat first
    [ apply all_ret
    | apply all_raise
    | apply py_int_silent
    | apply all_emit; reflexivity
    | apply all_bind; [ | intros ? ? ]
    | match goal with
      | H : outcome (py_int _) = Ok _ |- _ =>
          apply py_int_ok in H; destruct H as [? ->]
      | |- all_events _ (if is_not_None (PNum _) && is_not_None (PNum _)
                         then _ else _) => cbn [is_not_None andb]
      | |- all_events _ (match ?x with _ => _ end) => destruct x
      end ].
Qed.

Lemma main_never_warns_after_set (cfg : config) (w : world) :
  all_events (fun ev => negb (is_log_at 237 ev)) (main cfg w).
Proof.
  unfold main.
  repeat first
    [ apply report_applied_never_warns
    | apply all_emit; reflexivity
    | apply all_bind; [ | intros ? ? ]
    | solve [ open_run; walk ]
    | match goal with
      | |- all_events _ (match ?x with _ => _ end) => destruct x
      end ].
Qed.

(** C10: the applied limits are [int(...)] of the second component of
    [get_queue_tree_attributes].  When that component is [None] for the
    download queue, or for the upload queue after the download limit
    converted, [int] raises [TypeError] before the test of line 229, and
    nothing has been logged by the report; and in no run of [main] is the
    warning of line 237 emitted. *)
Theorem C10_final_warning_unreachable (cfg : config) (w : world) (a : api) :
  (exists i, outcome (get_queue_tree_attributes a (DOWNLOAD_QUEUE_NAME cfg))
             = Ok (i, PNone))
  \/ (exists i v n j,
        outcome (get_queue_tree_attributes a (DOWNLOAD_QUEUE_NAME cfg))
          = Ok (i, v)
        /\ outcome (py_int v) = Ok n
        /\ outcome (get_queue_tree_attributes a (UPLOAD_QUEUE_NAME cfg))
           = Ok (j, PNone)) ->
  (exists msg, outcome (report_applied a cfg) = Raise (TypeError msg))
  /\ count is_log (trace (report_applied a cfg)) = 0%nat
  /\ count (is_log_at 237) (trace (report_applied a cfg)) = 0%nat
  /\ count (is_log_at 237) (trace (main cfg w)) = 0%nat.
Proof.
  intros H.
  assert (G : (exists msg, outcome (report_applied a cfg)
                           = Raise (TypeError msg))
              /\ count is_log (trace (report_applied a cfg)) = 0%nat).
  { unfold report_applied.
    destruct H as [[i Hd] | [i [v [n [j [Hd [Hv Hu]]]]]]].
    - destruct (get_queue_tree_attributes a (DOWNLOAD_QUEUE_NAME cfg))
        as [t [[i' v'] | e]] eqn:Ed; simpl in Hd; inversion Hd; subst.
      revert Ed. unfold get_queue_tree_attributes, queue_tree_get. simpl.
      destruct (filter _ a); intros Ed; inversion Ed; subst; simpl;
        (split; [eexists; reflexivity | reflexivity]).
    - destruct (get_queue_tree_attributes a (DOWNLOAD_QUEUE_NAME cfg))
        as [t [[i' v'] | e]] eqn:Ed; simpl in Hd; inversion Hd; subst.
      destruct (get_queue_tree_attributes a (UPLOAD_QUEUE_NAME cfg))
        as [t2 [[j' u'] | e]] eqn:Eu; simpl in Hu; inversion Hu; subst.
      revert Ed Eu. unfold get_queue_tree_attributes, queue_tree_get. simpl.
      destruct (py_int v) as [tv [n' | e]] eqn:Ev; simpl in Hv;
        inversion Hv; subst.
      assert (tv = []) as ->.
      { pose proof (py_int_trace v) as T. rewrite Ev in T. exact T. }
      destruct (filter _ a); intros Ed; inversion Ed; subst;
        destruct (filter _ a); intros Eu; inversion Eu; subst; simpl;
        (split; [eexists; reflexivity | reflexivity]). }
  destruct G as [G1 G2]. split; [exact G1 |]. split; [exact G2 |].
  split; apply count_none_of_all.
  - apply report_applied_never_warns.
  - apply main_never_warns_after_set.
Qed.

Lemma C10_final_warning_witness :
  (exists msg, outcome (report_applied (queue_tree world_no_download) cfg0)
               = Raise (TypeError msg))
  /\ count is_log (trace (report_applied (queue_tree world_no_download) cfg0))
     = 0%nat
  /\ count (is_log_at 237)
       (trace (report_applied (queue_tree world_no_download) cfg0)) = 0%nat
  /\ count (is_log_at 237) (trace (main cfg0 world0)) = 0%nat.
Proof.
  apply (C10_final_warning_unreachable cfg0 world0
           (queue_tree world_no_download)).
  left. exists PNone. reflexivity.
Defined.

End FinalReport.

(** ** The missing download queue, in general *)

(** Whenever the session is up, both reads are valid and the router has no
    queue of the download name, [main] ends in [UnboundLocalError] without
    announcing any update and without releasing the session. *)
Lemma main_missing_download_queue (cfg : config) (w : world) (zd zu : Z) :
  get_api_error w = None ->
  snmp_agent w (SNMP_OID_DOWNSTREAM cfg) = SnmpValue zd -> 0 < zd ->
  snmp_agent w (SNMP_OID_UPSTREAM cfg) = SnmpValue zu -> 0 < zu ->
  (forall q, In q (queue_tree w) -> q_name q <> DOWNLOAD_QUEUE_NAME cfg) ->
  outcome (main cfg w) = Raise (UnboundLocalError "queue_id")
  /\ count (is_log_at 130) (trace (main cfg w)) = 0%nat
  /\ count is_disconnect (trace (main cfg w)) = 0%nat.
Proof.
  intros Hapi Hd Hzd Hu Hzu Habs.
  pose proof (filter_absent _ _ Habs) as F.
  assert (Ld : (zd <=? 0) = false) by (apply Z.leb_gt; lia).
  assert (Lu : (zu <=? 0) = false) by (apply Z.leb_gt; lia).
  unfold main, get_api, read_rates, snmp_get, get_queue_tree_attributes,
    set_queue_tree_max_limit, queue_tree_get.
  rewrite Hapi, Hd, Hu.
  cbn -[py_le0 bits_to_kbps subtract_percentage].
  rewrite !py_le0_snmp, Ld, Lu.
  cbn -[bits_to_kbps subtract_percentage].
  rewrite F. clear F.
  destruct (filter _ (queue_tree w));
    cbn -[bits_to_kbps subtract_percentage]; repeat split; reflexivity.
Qed.

(** ** More on the limit computation and the unit conversion *)

Section LimitExtras.

Local Open Scope Q_scope.

Lemma py_truthy_snmp (l : Z) : py_truthy (SnmpInt l) = negb (l =? 0)%Z.
Proof. destruct l; reflexivity. Qed.


(** X1: at the 10 percent that [main] passes, the limit for a rate
    [0 <= r < 2^50] read from the modem is [r - r // 10] in integer
    arithmetic. *)
Theorem limit_at_ten_percent (r : Z) :
  (0 <= r)%Z -> (r < 2 ^ 50)%Z ->
  subtract_percentage (SnmpInt r) (PyInt 10) = SnmpInt (r - r / 10).
Proof.
  intros H0 H. rewrite subtract_percentage_snmp.
  now rewrite (margin_at_ten_percent r (conj H0 H)).
Qed.

Lemma limit_at_ten_percent_witness :
  subtract_percentage (SnmpInt 10820608) (PyInt 10)
  = SnmpInt (10820608 - 10820608 / 10).
Proof.
  apply (limit_at_ten_percent 10820608); [discriminate | reflexivity].
Defined.

(** X2: for a rate [r > 0] and a percentage in [0, 100) the limit is at
    least 1, hence a true value in the guard of line 129: for an accepted
    rate the error branch of line 134 can only be due to the queue id. *)
Theorem limit_positive (r : Z) (pct : pynum) :
  (0 < r)%Z -> 0 <= to_Q pct -> to_Q pct < 100 ->
  exists l : Z,
    subtract_percentage (SnmpInt r) pct = SnmpInt l
    /\ (1 <= l)%Z
    /\ truthy (PNum (SnmpInt l)) = true.
Proof.
  intros Hr Hlo Hhi. rewrite subtract_percentage_snmp.
  destruct (margin_trunc_floor r pct ltac:(lia) Hlo) as [T _]. rewrite T.
  pose proof (margin_float_below_rate r pct Hr Hlo Hhi) as Hlt.
  eexists; split; [reflexivity |]. split; [lia |].
  cbn [truthy]. rewrite py_truthy_snmp.
  apply negb_true_iff, Z.eqb_neq. lia.
Qed.

Lemma limit_positive_witness :
  exists l : Z,
    subtract_percentage (SnmpInt 1) (PyInt 99) = SnmpInt l
    /\ (1 <= l)%Z
    /\ truthy (PNum (SnmpInt l)) = true.
Proof.
  apply (limit_positive 1 (PyInt 99)).
  - reflexivity.
  - discriminate.
  - reflexivity.
Defined.

(** X3: the limit is monotone in the rate: for an integer percentage from 0
    to 100 and rates [0 <= r1 <= r2 < 2^32] read from the modem, the limit
    for [r1] is at most the limit for [r2]. *)
Theorem limit_monotone (r1 r2 p : Z) :
  (0 <= r1)%Z -> (r1 <= r2)%Z -> (r2 < 2 ^ 32)%Z ->
  (0 <= p)%Z -> (p <= 100)%Z ->
  exists l1 l2 : Z,
    subtract_percentage (SnmpInt r1) (PyInt p) = SnmpInt l1
    /\ subtract_percentage (SnmpInt r2) (PyInt p) = SnmpInt l2
    /\ (l1 <= l2)%Z.
Proof.
  intros H1 H12 H2 Hp0 Hp1. rewrite !subtract_percentage_snmp.
  assert (P0 : 0 <= to_Q (PyInt p)).
  { cbn [to_Q]. change 0 with (inject_Z 0). rewrite <- Zle_Qle. lia. }
  destruct (margin_trunc_floor r1 (PyInt p) H1 P0) as [-> _].
  destruct (margin_trunc_floor r2 (PyInt p) ltac:(lia) P0) as [-> _].
  do 2 eexists. split; [reflexivity |]. split; [reflexivity |].
  destruct (Z.eq_dec p 100) as [-> | Np].
  - rewrite (Qfloor_comp _ _ (margin_float_all r1 ltac:(lia))).
    rewrite (Qfloor_comp _ _ (margin_float_all r2 ltac:(lia))).
    rewrite !Qfloor_Z. lia.
  - destruct (Z.eq_dec r1 r2) as [-> | Nr]; [lia |].
    pose proof (Z.div_mod (r1 * p) 100 ltac:(lia)) as D1.
    pose proof (Z.mod_pos_bound (r1 * p) 100 ltac:(lia)) as B1.
    pose proof (Z.div_mod (r2 * p) 100 ltac:(lia)) as D2.
    pose proof (Z.mod_pos_bound (r2 * p) 100 ltac:(lia)) as B2.
    destruct (margin_floor_integer_percent r1 p _ _ ltac:(lia) ltac:(lia)
                D1 ltac:(lia)) as (_ & L1 & L1').
    destruct (margin_floor_integer_percent r2 p _ _ ltac:(lia) ltac:(lia)
                D2 ltac:(lia)) as (U2 & _ & _).
    assert (K : (r2 * p = r1 * p + (r2 - r1) * p)%Z) by ring.
    assert (KP : (0 <= (r2 - r1) * p <= 99 * (r2 - r1))%Z) by nia.
    set (f1 := Qfloor (margin_float r1 (PyInt p))) in *.
    set (f2 := Qfloor (margin_float r2 (PyInt p))) in *.
    set (a1 := (r1 * p / 100)%Z) in *. set (b1 := ((r1 * p) mod 100)%Z) in *.
    set (a2 := (r2 * p / 100)%Z) in *. set (b2 := ((r2 * p) mod 100)%Z) in *.
    set (n1 := (r1 * p)%Z) in *. set (n2 := (r2 * p)%Z) in *.
    set (kp := ((r2 - r1) * p)%Z) in *.
    clearbody f1 f2 a1 b1 a2 b2 n1 n2 kp.
    destruct (Z.eq_dec b1 0) as [Zb | Zb].
    + lia.
    + specialize (L1 ltac:(lia)). lia.
Qed.

Lemma limit_monotone_witness :
  exists l1 l2 : Z,
    subtract_percentage (SnmpInt 10820608) (PyInt 29) = SnmpInt l1
    /\ subtract_percentage (SnmpInt 50676736) (PyInt 29) = SnmpInt l2
    /\ (l1 <= l2)%Z.
Proof.
  apply (limit_monotone 10820608 50676736 29);
    try discriminate; reflexivity.
Defined.



(** The unit conversion where the float of [bits / 1000] decides: 5 bits
    are 0.01 kbps (the float of 0.005 lies above the tie), and 45,609,065
    bits are 45,609.07 kbps. *)
Example bits_to_kbps_samples :
  bits_to_kbps (PyInt 5) = PyFloat (1 # 100)
  /\ bits_to_kbps (PyInt 45609065) = PyFloat (4560907 # 100)
  /\ bits_to_kbps (PyInt 45609063) = PyFloat (4560906 # 100)
  /\ bits_to_kbps (SnmpInt 50676736) = PyFloat (5067674 # 100).
Proof. repeat split; vm_compute; reflexivity. Qed.



End LimitExtras.

(** ** More on the queue functions *)

Section QueueExtras.

Lemma filter_first_match (l1 l2 : api) (q : queue) (queue_name : string) :
  (forall q', In q' l1 -> q_name q' <> queue_name) ->
  q_name q = queue_name ->
  filter (fun q => String.eqb (q_name q) queue_name) (l1 ++ q :: l2)
  = q :: filter (fun q => String.eqb (q_name q) queue_name) l2.
Proof.
  intros Habs Hq. rewrite filter_app, (filter_absent l1 _ Habs). simpl.
  rewrite Hq, String.eqb_refl. reflexivity.
Qed.

Lemma filter_empty_absent (a : api) (queue_name : string) :
  filter (fun q => String.eqb (q_name q) queue_name) a = [] ->
  forall q, In q a -> q_name q <> queue_name.
Proof.
  intros F q Hin Hq.
  assert (H : In q (filter (fun q => String.eqb (q_name q) queue_name) a)).
  { apply filter_In. split; [exact Hin |]. now apply String.eqb_eq. }
  rewrite F in H. destruct H.
Qed.

(** X5: a lookup by name uses the first entry of that name and ignores any
    later one: the id and limit returned are those of the first match. *)
Theorem get_queue_tree_attributes_first_match
    (l1 l2 : api) (q : queue) (queue_name : string) :
  (forall q', In q' l1 -> q_name q' <> queue_name) ->
  q_name q = queue_name ->
  get_queue_tree_attributes (l1 ++ q :: l2) queue_name
  = ([EQueueGet queue_name],
     Ok (of_option (q_id q), of_option (q_max_limit q))).
Proof.
  intros Habs Hq. unfold get_queue_tree_attributes, queue_tree_get. simpl.
  rewrite (filter_first_match l1 l2 q queue_name Habs Hq). reflexivity.
Qed.

Lemma get_queue_tree_attributes_first_match_witness :
  get_queue_tree_attributes
    ([mkQueue "upload" (Some "*2"%string) (Some "9738548"%string)]
       ++ mkQueue "download" (Some "*1"%string) (Some "45609063"%string)
       :: [mkQueue "download" (Some "*7"%string) (Some "1"%string)])
    "download"
  = ([EQueueGet "download"],
     Ok (of_option (Some "*1"%string), of_option (Some "45609063"%string))).
Proof.
  apply (get_queue_tree_attributes_first_match
           [mkQueue "upload" (Some "*2"%string) (Some "9738548"%string)]
           [mkQueue "download" (Some "*7"%string) (Some "1"%string)]
           (mkQueue "download" (Some "*1"%string) (Some "45609063"%string))
           "download").
  - intros q' [<- | []]. discriminate.
  - reflexivity.
Defined.

(** X6: when every entry of the tree carries an id, the id returned by
    [get_queue_tree_attributes] is [None] exactly when no queue has the
    name, so the test of line 208 detects exactly the missing queues. *)
Theorem queue_id_none_iff_absent
    (a : api) (queue_name : string) (i m : pyval) :
  (forall q, In q a -> q_id q <> None) ->
  outcome (get_queue_tree_attributes a queue_name) = Ok (i, m) ->
  (i = PNone <-> forall q, In q a -> q_name q <> queue_name).
Proof.
  intros Hid. unfold get_queue_tree_attributes, queue_tree_get. simpl.
  destruct (filter _ a) as [| q rest] eqn:F; simpl; intros E;
    inversion E; subst; clear E.
  - split; [intros _ | reflexivity]. now apply filter_empty_absent.
  - assert (Hq : In q (filter (fun q => String.eqb (q_name q) queue_name) a))
      by (rewrite F; left; reflexivity).
    apply filter_In in Hq. destruct Hq as [Hin Hn].
    apply String.eqb_eq in Hn.
    split.
    + intros Hnone. exfalso. apply (Hid q Hin).
      destruct (q_id q); [discriminate | reflexivity].
    + intros Habs. exfalso. exact (Habs q Hin Hn).
Qed.

Lemma queue_id_none_iff_absent_witness :
  PNone = PNone
  <-> forall q, In q (queue_tree world_no_download) ->
                q_name q <> "download"%string.
Proof.
  apply (queue_id_none_iff_absent (queue_tree world_no_download)
           "download" PNone PNone).
  - intros q [<- | []]. discriminate.
  - reflexivity.
Defined.

(** X7: [set_queue_tree_max_limit] returns normally exactly when the tree
    has a queue of the given name, whatever its id and whatever the limit;
    otherwise it raises. *)
Theorem set_queue_returns_iff_queue_exists
    (a : api) (queue_name : string) (max_limit : pyval) :
  outcome (set_queue_tree_max_limit a queue_name max_limit) = Ok tt
  <-> exists q, In q a /\ q_name q = queue_name.
Proof.
  unfold set_queue_tree_max_limit, queue_tree_get. simpl.
  destruct (filter _ a) as [| q rest] eqn:F; simpl.
  - split; [discriminate |].
    intros [q [Hin Hn]]. exfalso.
    exact (filter_empty_absent a queue_name F q Hin Hn).
  - assert (Hq : In q (filter (fun q => String.eqb (q_name q) queue_name) a))
      by (rewrite F; left; reflexivity).
    apply filter_In in Hq. destruct Hq as [Hin Hn].
    apply String.eqb_eq in Hn.
    split; [intros _; eauto |].
    intros _. destruct (truthy (of_option (q_id q)) && truthy max_limit);
      reflexivity.
Qed.

End QueueExtras.

(** ** Runs of [main] as a whole *)

Section WholeRuns.

(** What a normal return of [main] needed. *)
Lemma main_success_inv (cfg : config) (w : world) :
  outcome (main cfg w) = Ok tt ->
  get_api_error w = None
  /\ (exists zd, valid_rate (snmp_agent w (SNMP_OID_DOWNSTREAM cfg)) = Some zd)
  /\ (exists zu, valid_rate (snmp_agent w (SNMP_OID_UPSTREAM cfg)) = Some zu)
  /\ (exists ad, stored_limit (queue_tree w) (DOWNLOAD_QUEUE_NAME cfg) = Some ad)
  /\ (exists au, stored_limit (queue_tree w) (UPLOAD_QUEUE_NAME cfg) = Some au).
Proof.
  unfold main, get_api, read_rates, snmp_get, report_applied,
    get_queue_tree_attributes, set_queue_tree_max_limit, queue_tree_get,
    stored_limit, first_entry, valid_rate.
  destruct (get_api_error w) as [msg |]; [discriminate |].
  destruct (snmp_agent w (SNMP_OID_DOWNSTREAM cfg)) as [m1 | m1 | zd];
    destruct (snmp_agent w (SNMP_OID_UPSTREAM cfg)) as [m2 | m2 | zu];
    cbn -[py_le0 bits_to_kbps subtract_percentage]; try discriminate;
    rewrite ?py_le0_snmp;
    destruct (zd <=? 0); cbn -[py_le0 bits_to_kbps subtract_percentage];
      try discriminate;
    rewrite ?py_le0_snmp;
    destruct (zu <=? 0); cbn -[py_le0 bits_to_kbps subtract_percentage];
      try discriminate.
  destruct (filter _ (queue_tree w)) as [| qd rd];
    cbn -[bits_to_kbps subtract_percentage].
  { destruct (filter _ (queue_tree w));
      cbn -[bits_to_kbps subtract_percentage]; discriminate. }
  destruct (filter _ (queue_tree w)) as [| qu ru];
    cbn -[bits_to_kbps subtract_percentage].
  { destruct (is_not_None (of_option (q_id qd)) && false);
    cbn -[bits_to_kbps subtract_percentage];
    destruct (truthy (of_option (q_id qd)) && _);
    cbn -[bits_to_kbps subtract_percentage]; discriminate. }
  destruct (is_not_None (of_option (q_id qd)) && _);
    destruct (truthy (of_option (q_id qd)) && _);
    destruct (truthy (of_option (q_id qu)) && _);
    destruct (q_max_limit qd) as [sd |];
    destruct (q_max_limit qu) as [su |];
    cbn -[bits_to_kbps subtract_percentage]; try discriminate;
    try (destruct (int_of_string sd) as [ad |]);
    cbn -[bits_to_kbps subtract_percentage]; try discriminate;
    try (destruct (int_of_string su) as [au |]);
    cbn -[bits_to_kbps subtract_percentage]; try discriminate;
    intros _; repeat split; eauto.
Qed.

(** The run of [main] when all of that holds. *)
Lemma main_success_run (cfg : config) (w : world) (zd zu : Z)
    (qd qu : queue) (ad au : Z) :
  get_api_error w = None ->
  valid_rate (snmp_agent w (SNMP_OID_DOWNSTREAM cfg)) = Some zd ->
  valid_rate (snmp_agent w (SNMP_OID_UPSTREAM cfg)) = Some zu ->
  first_entry (queue_tree w) (DOWNLOAD_QUEUE_NAME cfg) = Some qd ->
  first_entry (queue_tree w) (UPLOAD_QUEUE_NAME cfg) = Some qu ->
  stored_limit (queue_tree w) (DOWNLOAD_QUEUE_NAME cfg) = Some ad ->
  stored_limit (queue_tree w) (UPLOAD_QUEUE_NAME cfg) = Some au ->
  main cfg w = (success_trace cfg zd zu qd qu ad au, Ok tt).
Proof.
  unfold stored_limit. intros Hapi Hd Hu Fd Fu Sd Su.
  rewrite Fd in Sd. rewrite Fu in Su.
  unfold first_entry in Fd, Fu.
  unfold valid_rate in Hd, Hu.
  destruct (snmp_agent w (SNMP_OID_DOWNSTREAM cfg)) as [| | zd'] eqn:Ed;
    try discriminate.
  destruct (snmp_agent w (SNMP_OID_UPSTREAM cfg)) as [| | zu'] eqn:Eu;
    try discriminate.
  destruct (zd' <=? 0) eqn:Ld; [discriminate |]. inversion Hd; subst zd'.
  destruct (zu' <=? 0) eqn:Lu; [discriminate |]. inversion Hu; subst zu'.
  unfold main, get_api, read_rates, snmp_get, report_applied,
    get_queue_tree_attributes, set_queue_tree_max_limit, queue_tree_get,
    success_trace.
  rewrite Hapi, Ed, Eu.
  cbn -[py_le0 bits_to_kbps subtract_percentage].
  rewrite !py_le0_snmp, Ld, Lu.
  cbn -[bits_to_kbps subtract_percentage].
  destruct (filter _ (queue_tree w)) as [| qd' rd]; [discriminate |].
  inversion Fd; subst qd'.
  destruct (filter _ (queue_tree w)) as [| qu' ru]; [discriminate |].
  inversion Fu; subst qu'.
  destruct (q_max_limit qd) as [sd |]; [| discriminate].
  destruct (q_max_limit qu) as [su |]; [| discriminate].
  cbn -[bits_to_kbps subtract_percentage]. rewrite Sd, Su.
  destruct (is_not_None (of_option (q_id qd)) && _);
    destruct (truthy (of_option (q_id qd)) && _);
    destruct (truthy (of_option (q_id qu)) && _);
    reflexivity.
Qed.



Lemma stored_limit_entry (a : api) (queue_name : string) (z : Z) :
  stored_limit a queue_name = Some z ->
  exists q, first_entry a queue_name = Some q.
Proof.
  unfold stored_limit. destruct (first_entry a queue_name) as [q |];
    [eauto | discriminate].
Qed.


(** X9: whenever [main] returns normally, the line "APPLIED Max Limits"
    reports the limits the router already held for the first entry of each
    name, not the limits computed from the rates. *)
Theorem applied_report_shows_stored_limits (cfg : config) (w : world) :
  outcome (main cfg w) = Ok tt ->
  exists ad au,
    stored_limit (queue_tree w) (DOWNLOAD_QUEUE_NAME cfg) = Some ad
    /\ stored_limit (queue_tree w) (UPLOAD_QUEUE_NAME cfg) = Some au
    /\ In (ELog 230 INFO
             "Download/Uploads Queue APPLIED Max Limits: %s/%s (%s/%s kbps)"
             [ PNum (PyInt ad); PNum (PyInt au);
               PNum (bits_to_kbps (PyInt ad));
               PNum (bits_to_kbps (PyInt au)) ])
          (trace (main cfg w)).
Proof.
  intros Hok.
  destruct (main_success_inv cfg w Hok)
    as (Hapi & [zd Hd] & [zu Hu] & [ad Sd] & [au Su]).
  destruct (stored_limit_entry _ _ _ Sd) as [qd Fd].
  destruct (stored_limit_entry _ _ _ Su) as [qu Fu].
  exists ad, au. split; [exact Sd |]. split; [exact Su |].
  rewrite (main_success_run cfg w zd zu qd qu ad au); auto.
  unfold success_trace, trace. cbn [fst].
  apply in_or_app. right. apply in_or_app. right.
  simpl. do 6 right. left. reflexivity.
Qed.

Lemma applied_report_witness :
  exists ad au,
    stored_limit (queue_tree world0) (DOWNLOAD_QUEUE_NAME cfg0) = Some ad
    /\ stored_limit (queue_tree world0) (UPLOAD_QUEUE_NAME cfg0) = Some au
    /\ In (ELog 230 INFO
             "Download/Uploads Queue APPLIED Max Limits: %s/%s (%s/%s kbps)"
             [ PNum (PyInt ad); PNum (PyInt au);
               PNum (bits_to_kbps (PyInt ad));
               PNum (bits_to_kbps (PyInt au)) ])
          (trace (main cfg0 world0)).
Proof.
  apply (applied_report_shows_stored_limits cfg0 world0). reflexivity.
Defined.

(** The report for stored limits at a decimal tie and in the spellings
    that [int] accepts: 45,609,065 bits are reported as 45609.07 kbps. *)
Example applied_report_at_tie :
  outcome (main cfg0 world_tie_limit) = Ok tt
  /\ In (ELog 230 INFO
           "Download/Uploads Queue APPLIED Max Limits: %s/%s (%s/%s kbps)"
           [ PNum (PyInt 45609065); PNum (PyInt 9738548);
             PNum (PyFloat (4560907 # 100)); PNum (PyFloat (973855 # 100)) ])
        (trace (main cfg0 world_tie_limit)).
Proof.
  split; [reflexivity |]. vm_compute.
  repeat (first [left; reflexivity | right]).
Qed.

(** X10: a run that returns normally made exactly two SNMP requests and six
    queue lookups (three per queue), sent no update request, and released
    the session once, as its last action. *)
Theorem successful_run_requests (cfg : config) (w : world) :
  outcome (main cfg w) = Ok tt ->
  count is_snmp_get (trace (main cfg w)) = 2%nat
  /\ count is_queue_get (trace (main cfg w)) = 6%nat
  /\ count is_set (trace (main cfg w)) = 0%nat
  /\ count is_disconnect (trace (main cfg w)) = 1%nat
  /\ exists t, trace (main cfg w) = (t ++ [EDisconnect])%list.
Proof.
  intros Hok.
  destruct (main_success_inv cfg w Hok)
    as (Hapi & [zd Hd] & [zu Hu] & [ad Sd] & [au Su]).
  destruct (stored_limit_entry _ _ _ Sd) as [qd Fd].
  destruct (stored_limit_entry _ _ _ Su) as [qu Fu].
  rewrite (main_success_run cfg w zd zu qd qu ad au); auto.
  unfold success_trace, trace. cbn [fst].
  destruct (is_not_None (of_option (q_id qd)) && _);
    destruct (truthy (of_option (q_id qd)) && _);
    destruct (truthy (of_option (q_id qu)) && _);
    (repeat split; try reflexivity);
    cbn [app];
    match goal with
    | |- exists t, ?l = _ => exists (removelast l); reflexivity
    end.
Qed.

Lemma successful_run_requests_witness :
  count is_snmp_get (trace (main cfg0 world0)) = 2%nat
  /\ count is_queue_get (trace (main cfg0 world0)) = 6%nat
  /\ count is_set (trace (main cfg0 world0)) = 0%nat
  /\ count is_disconnect (trace (main cfg0 world0)) = 1%nat
  /\ exists t, trace (main cfg0 world0) = (t ++ [EDisconnect])%list.
Proof. apply (successful_run_requests cfg0 world0). reflexivity. Defined.

End WholeRuns.

(** ** Exit codes, order of requests, release of the session *)

Section RunInvariants.

Lemma exits_bind {A B} (m : M A) (k : A -> M B) :
  exits_with_one m -> (forall a, exits_with_one (k a)) ->
  exits_with_one (bind m k).
Proof.
  unfold exits_with_one. destruct m as [t [a | e]]; simpl; intros Hm Hk.
  - specialize (Hk a). destruct (k a) as [t' r]; simpl in *. exact Hk.
  - intros c E. apply Hm. inversion E. reflexivity.
Qed.

Lemma exits_try {A} (m : M A) (h : exn -> M A) :
  exits_with_one m -> (forall e, exits_with_one (h e)) ->
  exits_with_one (try_except m h).
Proof.
  unfold exits_with_one. destruct m as [t [a | e]]; simpl; intros Hm Hh.
  - exact Hm.
  - destruct (is_Exception e) eqn:E; simpl; [| exact Hm].
    specialize (Hh e). destruct (h e) as [t' r]; simpl in *. exact Hh.
Qed.

Lemma exits_base {A} (t : list event) (r : result A) :
  (forall c, r = Raise (SystemExit c) -> c = 1) -> exits_with_one (t, r).
Proof. intros H c E. apply H. exact E. Qed.

Ltac walk_exits :=
  repeat first
    [ apply exits_bind; [ | intros ? ]
    | apply exits_try; [ | intros ? ]
    | apply exits_base; intros ? ?; congruence
    | match goal with
      | |- exits_with_one (match ?x with _ => _ end) => destruct x
      end ].

(** X11: the exit status of the process is 0 or 1 on every run: every
    [exit] of the script uses code 1, and an uncaught exception gives 1. *)
Theorem exit_status_is_0_or_1 (cfg : config) (w : world) :
  exit_status (main cfg w) = 0 \/ exit_status (main cfg w) = 1.
Proof.
  assert (H : exits_with_one (main cfg w)).
  { open_run. unfold ret, raise, emit. walk_exits. }
  unfold exit_status. unfold exits_with_one in H.
  destruct (outcome (main cfg w)) as [u | e]; [left; reflexivity |].
  right. destruct e; try reflexivity. apply H. reflexivity.
Qed.

Lemma count_app (P : event -> bool) (t1 t2 : list event) :
  count P (t1 ++ t2) = (count P t1 + count P t2)%nat.
Proof. unfold count. now rewrite filter_app, length_app. Qed.

Lemma count_bind_le {A B} (P : event -> bool) (m : M A) (k : A -> M B)
    (n1 n2 : nat) :
  (count P (trace m) <= n1)%nat ->
  (forall a, (count P (trace (k a)) <= n2)%nat) ->
  (count P (trace (bind m k)) <= n1 + n2)%nat.
Proof.
  destruct m as [t [a | e]]; simpl; intros Hm Hk.
  - specialize (Hk a). destruct (k a) as [t' r]; simpl in *.
    rewrite count_app. lia.
  - lia.
Qed.

Lemma phases_bind_first {A B} (P Q : event -> bool) (m : M A)
    (k : A -> M B) :
  all_events P m ->
  (forall a, outcome m = Ok a -> in_two_phases P Q (k a)) ->
  in_two_phases P Q (bind m k).
Proof.
  unfold in_two_phases, all_events.
  destruct m as [t [a | e]]; simpl; intros Hm Hk.
  - destruct (Hk a eq_refl) as (t1 & t2 & E & H1 & H2).
    destruct (k a) as [t' r]; simpl in *. subst t'.
    exists (t ++ t1)%list, t2. rewrite app_assoc.
    split; [reflexivity |]. split; [apply Forall_app; auto | exact H2].
  - exists t, []. rewrite app_nil_r. auto.
Qed.

Lemma phases_second {A} (P Q : event -> bool) (m : M A) :
  all_events Q m -> in_two_phases P Q m.
Proof. intros H. exists [], (trace m). simpl. auto. Qed.

Lemma read_rates_at_most_two_requests (cfg : config) (w : world) :
  (count is_snmp_get (trace (read_rates cfg w)) <= 2)%nat.
Proof.
  unfold read_rates, snmp_get.
  destruct (snmp_agent w (SNMP_OID_DOWNSTREAM cfg)) as [m1 | m1 | z1];
    destruct (snmp_agent w (SNMP_OID_UPSTREAM cfg)) as [m2 | m2 | z2];
    cbn -[py_le0 Nat.leb]; rewrite ?py_le0_snmp;
    try (destruct (z1 <=? 0)); cbn -[py_le0]; rewrite ?py_le0_snmp;
    try (destruct (z2 <=? 0)); cbn; lia.
Qed.

(** X12: no run makes more than two SNMP requests (a failed read is not
    retried), and every SNMP request precedes every request about a queue:
    the trace is a phase without queue requests followed by a phase
    without SNMP requests. *)
Theorem reads_precede_queue_requests (cfg : config) (w : world) :
  (count is_snmp_get (trace (main cfg w)) <= 2)%nat
  /\ in_two_phases (fun ev => negb (is_queue_request ev))
       (fun ev => negb (is_snmp_get ev)) (main cfg w).
Proof.
  split.
  - unfold main.
    apply (count_bind_le is_snmp_get _ _ 0 2).
    { unfold get_api. destruct (get_api_error w); cbn; lia. }
    intros a. apply (count_bind_le is_snmp_get _ _ 2 0).
    { apply read_rates_at_most_two_requests. }
    intros [d u].
    rewrite count_none_of_all; [lia |]. open_run. walk.
  - unfold main.
    apply phases_bind_first; [open_run; walk | intros a _].
    apply phases_bind_first; [open_run; walk | intros [d u] _].
    apply phases_second. open_run. walk.
Qed.

(** X13: the session is released on the runs that return normally and on
    no other run. *)
Theorem session_released_iff_success (cfg : config) (w : world) :
  In EDisconnect (trace (main cfg w)) <-> outcome (main cfg w) = Ok tt.
Proof.
  split; [apply disconnect_only_on_success |].
  intros Hok.
  destruct (main_success_inv cfg w Hok)
    as (Hapi & [zd Hd] & [zu Hu] & [ad Sd] & [au Su]).
  destruct (stored_limit_entry _ _ _ Sd) as [qd Fd].
  destruct (stored_limit_entry _ _ _ Su) as [qu Fu].
  rewrite (main_success_run cfg w zd zu qd qu ad au); auto.
  unfold success_trace, trace. cbn [fst].
  apply in_or_app. right. apply in_or_app. right.
  simpl. do 7 right. left. reflexivity.
Qed.



End RunInvariants.

(** ** Start-up *)

Section StartupRuns.

Import Startup.
Local Open Scope string_scope.

Lemma setting_ok (env : environ) (config : json) (name section key : string)
    (t : list event) (v : json) :
  setting env config name section key = (t, SOk v) ->
  t = [] /\ exists d, file_value (FileJson config) section key = Some d
                      /\ v = getenv env name d.
Proof.
  unfold setting, subscript, file_value.
  destruct config; try discriminate.
  destruct (assoc section members) as [sec |]; [| discriminate].
  destruct sec; try discriminate. simpl.
  destruct (assoc key members0) as [d |]; [| discriminate].
  simpl. intros E. inversion E; subst. eauto.
Qed.

Lemma sbind_ok {A B} (m : ST A) (k : A -> ST B) (t : list event) (b : B) :
  sbind m k = (t, SOk b) ->
  exists t1 a t2, m = (t1, SOk a) /\ k a = (t2, SOk b) /\ t = (t1 ++ t2)%list.
Proof.
  destruct m as [t1 [a | e]]; simpl; [| discriminate].
  destruct (k a) as [t2 r] eqn:E. intros H. inversion H; subst.
  exists t1, a, t2. auto.
Qed.

Ltac sbind_inv H :=
  let t1 := fresh "t" in let a := fresh "v" in let t2 := fresh "t" in
  let H1 := fresh "S" in let H2 := fresh "K" in let E := fresh "E" in
  apply sbind_ok in H; destruct H as [t1 [a [t2 [H1 [H2 E]]]]].

Lemma int_of_json_ok (v : json) (t : list event) (z : Z) :
  int_of_json v = (t, SOk z) -> t = [].
Proof.
  destruct v; simpl; try discriminate; try (intros E; now inversion E).
  destruct (int_of_string s); [intros E; now inversion E | discriminate].
Qed.

Lemma lift_get_api_ok (w : world) (t : list event) (a : api) :
  lift (get_api w) = (t, SOk a) ->
  t = [EGetApi] /\ get_api_error w = None /\ a = queue_tree w.
Proof.
  unfold get_api. destruct (get_api_error w); simpl; [discriminate |].
  intros E. inversion E. auto.
Qed.

Lemma startup_ok_inv (env : environ) (file : config_file) (w : world)
    (t : list event) (a : api) (s : settings) :
  startup env file w = (t, SOk (a, s)) ->
  t = [EGetApi] /\ get_api_error w = None /\ a = queue_tree w
  /\ int_of_json (ROUTER_PORT s) = ([], SOk (port s))
  /\ forall name section key proj,
       In (name, section, key, proj) settings_table ->
       exists d, file_value file section key = Some d
                 /\ proj s = getenv env name d.
Proof.
  unfold startup. intros K.
  apply sbind_ok in K. destruct K as (t0 & config & t0' & R & K & ->).
  destruct file; try discriminate. inversion R; subst; clear R.
  repeat (apply sbind_ok in K;
          let H := fresh "H" in destruct K as (? & ? & ? & H & K & ->)).
  inversion K; subst; clear K.
  repeat match goal with
  | H : setting _ _ _ _ _ = _ |- _ =>
      apply setting_ok in H; destruct H as (-> & ? & ? & ->)
  end.
  match goal with
  | H : int_of_json ?v = (?t, _) |- _ =>
      pose proof (int_of_json_ok _ _ _ H); subst t
  end.
  match goal with
  | H : lift (get_api w) = _ |- _ =>
      apply lift_get_api_ok in H; destruct H as (-> & ? & ->)
  end.
  simpl. repeat split; auto.
  intros name section key proj Hin. simpl in Hin.
  repeat (destruct Hin as [Hin | Hin];
          [inversion Hin; subst; eexists; split; [eassumption | reflexivity]
          |]).
  destruct Hin.
Qed.

Lemma setting_some (env : environ) (config : json)
    (name section key : string) (d : json) :
  file_value (FileJson config) section key = Some d ->
  setting env config name section key = ([], SOk (getenv env name d)).
Proof.
  unfold setting, subscript, file_value.
  destruct config; try discriminate.
  destruct (assoc section members) as [sec |]; [| discriminate].
  destruct sec; try discriminate. simpl.
  intros ->. reflexivity.
Qed.

Lemma setting_none (env : environ) (config : json)
    (name section key : string) :
  file_value (FileJson config) section key = None ->
  exists e, setting env config name section key = ([], SRaise e).
Proof.
  unfold setting, subscript, file_value.
  destruct config; simpl; eauto.
  destruct (assoc section members) as [sec |]; simpl; eauto.
  destruct sec; simpl; eauto.
  intros ->. simpl. eauto.
Qed.

(** Case analysis on one setting of the file. *)
Ltac split_setting config section key :=
  let d := fresh "d" in let F := fresh "F" in let e := fresh "e" in
  match goal with
  | |- context [setting ?env config ?name section key] =>
      destruct (file_value (FileJson config) section key) as [d |] eqn:F;
      [ rewrite (setting_some env config name section key d F)
      | destruct (setting_none env config name section key F) as [e ->] ]
  end.


Lemma file_value_json (file : config_file) (section key : string) (d : json) :
  file_value file section key = Some d -> exists config, file = FileJson config.
Proof. destruct file; simpl; try discriminate. eauto. Qed.

(** X15: in the settings that start-up delivers, an environment variable
    that is set replaces the value of the file, for each of the ten
    settings; a variable that is not set leaves the file's value. *)
Theorem environment_overrides_file
    (env : environ) (file : config_file) (w : world)
    (t : list event) (a : api) (s : settings)
    (name section key : string) (proj : settings -> json) :
  startup env file w = (t, SOk (a, s)) ->
  In (name, section, key, proj) settings_table ->
  (forall v, assoc name env = Some v -> proj s = JStr v)
  /\ (assoc name env = None -> file_value file section key = Some (proj s)).
Proof.
  intros H Hin.
  destruct (startup_ok_inv env file w t a s H) as (_ & _ & _ & _ & Htab).
  destruct (Htab name section key proj Hin) as (d & Fd & ->).
  unfold getenv. split.
  - intros v ->. reflexivity.
  - intros ->. exact Fd.
Qed.



(** X18: when the RouterOS settings resolve, the port converts and the
    connection is made, a key missing from the [snmp] section is noticed
    only afterwards: start-up raises with the session already open, and
    nothing releases it. *)
Theorem snmp_key_missing_after_connect
    (env : environ) (file : config_file) (w : world)
    (name key : string) (proj : settings -> json) :
  (forall name key proj,
     In (name, "routeros", key, proj) settings_table ->
     exists d, file_value file "routeros" key = Some d) ->
  (exists d z,
     file_value file "routeros" "router_port" = Some d
     /\ int_of_json (getenv env "ROUTER_PORT" d) = ([], SOk z)) ->
  get_api_error w = None ->
  In (name, "snmp", key, proj) settings_table ->
  file_value file "snmp" key = None ->
  exists e, startup env file w = ([EGetApi], SRaise e).
Proof.
  intros Hr (d & z & Fp & Hp) Hapi Hin Hmiss.
  destruct (file_value_json _ _ _ _ Fp) as [config ->].
  destruct (Hr "ROUTER_IP" "router_ip" ROUTER_IP) as [d1 F1]; [simpl; auto |].
  destruct (Hr "DOWNLOAD_QUEUE_NAME" "download_queue_name"
              DOWNLOAD_QUEUE_NAME) as [d3 F3]; [simpl; auto |].
  destruct (Hr "UPLOAD_QUEUE_NAME" "upload_queue_name" UPLOAD_QUEUE_NAME)
    as [d4 F4]; [simpl; auto |].
  destruct (Hr "ROUTER_USERNAME" "username" USERNAME)
    as [d5 F5]; [simpl; auto 10 |].
  destruct (Hr "ROUTER_PASSWORD" "password" PASSWORD)
    as [d6 F6]; [simpl; auto 10 |].
  unfold startup. cbn [read_config sret sbind app].
  rewrite (setting_some _ _ _ _ _ _ F1), (setting_some _ _ _ _ _ _ Fp),
    (setting_some _ _ _ _ _ _ F3), (setting_some _ _ _ _ _ _ F4),
    (setting_some _ _ _ _ _ _ F5), (setting_some _ _ _ _ _ _ F6).
  cbn [sbind app]. rewrite Hp. cbn [sbind app].
  unfold get_api. rewrite Hapi. cbn [bind emit ret lift sbind app].
  split_setting config "snmp" "dsl_modem_ip"; [| cbn; eauto].
  split_setting config "snmp" "community_string"; [| cbn; eauto].
  split_setting config "snmp" "snmp_oid_downstream"; [| cbn; eauto].
  split_setting config "snmp" "snmp_oid_upstream"; [| cbn; eauto].
  exfalso. simpl in Hin.
  repeat (destruct Hin as [Hin | Hin];
          [inversion Hin; subst; congruence |]).
  destruct Hin.
Qed.

Lemma environment_overrides_file_witness :
  (forall v, assoc "DOWNLOAD_QUEUE_NAME" env0 = Some v ->
             DOWNLOAD_QUEUE_NAME settings0 = JStr v)
  /\ (assoc "DOWNLOAD_QUEUE_NAME" env0 = None ->
      file_value file0 "routeros" "download_queue_name"
      = Some (DOWNLOAD_QUEUE_NAME settings0)).
Proof.
  apply (environment_overrides_file env0 file0 world0 [EGetApi]
           (queue_tree world0) settings0
           "DOWNLOAD_QUEUE_NAME" "routeros" "download_queue_name"
           DOWNLOAD_QUEUE_NAME).
  - reflexivity.
  - simpl. auto.
Defined.


Lemma snmp_key_missing_witness :
  exists e,
    startup env0 file_no_upstream_oid world0 = ([EGetApi], SRaise e).
Proof.
  apply (snmp_key_missing_after_connect env0 file_no_upstream_oid world0
           "SNMP_OID_UPSTREAM" "snmp_oid_upstream" SNMP_OID_UPSTREAM).
  - intros name key proj Hin. simpl in Hin.
    repeat (destruct Hin as [Hin | Hin];
            [inversion Hin; subst; eexists; reflexivity |]).
    destruct Hin.
  - exists (JInt 8729), 8728. split; reflexivity.
  - reflexivity.
  - simpl. auto 12.
  - reflexivity.
Defined.

End StartupRuns.

(** ** The two reads *)

Section Reads.

(** X19: [read_rates] hands back the two rates, as read, exactly when both
    replies are positive values; it has then made the two requests and
    printed or logged nothing. *)
Theorem read_rates_ok_iff (cfg : config) (w : world) (down up : pynum) :
  outcome (read_rates cfg w) = Ok (down, up)
  <-> exists zd zu,
        valid_rate (snmp_agent w (SNMP_OID_DOWNSTREAM cfg)) = Some zd
        /\ valid_rate (snmp_agent w (SNMP_OID_UPSTREAM cfg)) = Some zu
        /\ down = SnmpInt zd /\ up = SnmpInt zu
        /\ trace (read_rates cfg w)
           = [ ESnmpGet (DSL_MODEM_IP cfg) (SNMP_COMMUNITY_STRING cfg)
                 (SNMP_OID_DOWNSTREAM cfg);
               ESnmpGet (DSL_MODEM_IP cfg) (SNMP_COMMUNITY_STRING cfg)
                 (SNMP_OID_UPSTREAM cfg) ].
Proof.
  unfold read_rates, snmp_get, valid_rate.
  destruct (snmp_agent w (SNMP_OID_DOWNSTREAM cfg)) as [m1 | m1 | z1];
    destruct (snmp_agent w (SNMP_OID_UPSTREAM cfg)) as [m2 | m2 | z2];
    cbn -[py_le0]; rewrite ?py_le0_snmp;
    try (destruct (z1 <=? 0)); cbn -[py_le0]; rewrite ?py_le0_snmp;
    try (destruct (z2 <=? 0)); cbn;
    (split;
     [ try discriminate; intros E; inversion E; subst;
       do 2 eexists; repeat split; reflexivity
     | intros (zd & zu & Hd & Hu & -> & -> & _);
       try discriminate; inversion Hd; inversion Hu; subst; reflexivity ]).
Qed.

(** X20: a downstream read that raises stops the reading at once (one
    request, then [exit(1)]); in every other case the upstream read is
    made as well, even after a downstream error indication or a rejected
    value. *)
Theorem upstream_read_unless_downstream_raises (cfg : config) (w : world) :
  count is_snmp_get (trace (read_rates cfg w))
  = match snmp_agent w (SNMP_OID_DOWNSTREAM cfg) with
    | SnmpRaises _ => 1%nat
    | _ => 2%nat
    end
  /\ (forall msg,
        snmp_agent w (SNMP_OID_DOWNSTREAM cfg) = SnmpRaises msg ->
        read_rates cfg w
        = ([ ESnmpGet (DSL_MODEM_IP cfg) (SNMP_COMMUNITY_STRING cfg)
               (SNMP_OID_DOWNSTREAM cfg);
             EPrint ("Error: " ++ msg) ],
           Raise (SystemExit 1))).
Proof.
  unfold read_rates, snmp_get.
  destruct (snmp_agent w (SNMP_OID_DOWNSTREAM cfg)) as [m1 | m1 | z1];
    destruct (snmp_agent w (SNMP_OID_UPSTREAM cfg)) as [m2 | m2 | z2];
    cbn -[py_le0]; rewrite ?py_le0_snmp;
    try (destruct (z1 <=? 0)); cbn -[py_le0]; rewrite ?py_le0_snmp;
    try (destruct (z2 <=? 0)); cbn;
    (split; [reflexivity | intros msg E; inversion E; reflexivity]).
Qed.

End Reads.
